(** * DataCollectionScripts: the site-scoped crawler and the response parser

    A shallow embedding of [get-all-child-pages.py] ([crawl_page], [main])
    and of [parse_openai_response] from [analyze-reddit-topic.py].

    Python's [set] of visited URLs is a [gset string], the list of child
    URLs a [list string].  Both objects are created once in [main] and
    mutated in place by every nested call of [crawl_page]; the embedding
    threads them through the calls as one [state].  An exception leaves
    the objects as they were when it was raised, so an outcome that is
    not a normal return still carries the state. *)

From Stdlib Require Import Ascii String.
From stdpp Require Import gmap strings list.

Open Scope string_scope.
#[local] Set Warnings "-clear-no-such-hyp".

(** ** Python string operations used by the scripts *)
Module Py.

(** [s.startswith(p)]. *)
Fixpoint startswith (s p : string) {struct p} : bool :=
  match p with
  | EmptyString => true
  | String c p' =>
      match s with
      | EmptyString => false
      | String d s' => if Ascii.eqb d c then startswith s' p' else false
      end
  end.

(** [s.split('#')[0]]: the text before the first ['#'], the whole string
    when there is none. *)
Fixpoint split_hash_0 (s : string) : string :=
  match s with
  | EmptyString => EmptyString
  | String c s' => if Ascii.eqb c "#"%char then EmptyString else String c (split_hash_0 s')
  end.

(** [c in s] for a character [c]. *)
Fixpoint has_char (c : ascii) (s : string) : bool :=
  match s with
  | EmptyString => false
  | String d s' => if Ascii.eqb d c then true else has_char c s'
  end.

(** Truth value of a string: only the empty string is false. *)
Definition truthy (s : string) : bool :=
  match s with
  | EmptyString => false
  | String _ _ => true
  end.

End Py.

(** ** The crawler, [get-all-child-pages.py] *)
Module Crawler.

(** What the two collaborators give for a URL: [requests.get] raises
    (connection failure, malformed URL, ...), or it returns a response
    whose body [BeautifulSoup(...).find_all('a')] turns into anchors,
    in document order.  An anchor is kept as the value of
    [anchor.get('href')]: [None] when the tag has no such attribute.
    The status code is part of the response; [crawl_page] never reads
    it. *)
Inductive reply : Type :=
| GetRaises
| Response (status_code : Z) (anchors : list (option string)).

(** The exceptions that can leave [crawl_page]. *)
Inductive exn : Type :=
| RequestException   (* raised by [requests.get] *)
| AttributeError     (* [None.startswith] *)
| ValueError.        (* raised by [urljoin] on a malformed reference *)

(** The two mutable objects of [main], and the trace of the GET
    requests issued so far (oldest first). *)
Record state : Type := State {
  visited_urls : gset string;
  child_urls : list string;
  requested : list string
}.

(** How a call ends.  [OutOfFuel] is the embedding's own: the nesting
    of calls went deeper than the fuel given. *)
Inductive outcome : Type :=
| Done (st : state)
| Raised (e : exn) (st : state)
| OutOfFuel (st : state).

Definition final (o : outcome) : state :=
  match o with
  | Done st | Raised _ st | OutOfFuel st => st
  end.

(** [visited_urls.add(url)] *)
Definition add_visited (url : string) (st : state) : state :=
  State ({[url]} ∪ visited_urls st) (child_urls st) (requested st).

(** [child_urls.append(absolute_url)] *)
Definition append_child (u : string) (st : state) : state :=
  State (visited_urls st) (child_urls st ++ [u]) (requested st).

(** The effect of [requests.get(url)] on the trace. *)
Definition log_get (url : string) (st : state) : state :=
  State (visited_urls st) (child_urls st) (requested st ++ [url]).

(** The test of line 34 on an href that is a string,
    [href and href.startswith('https://') or href.startswith('/')],
    which Python groups as [(href and ...) or ...]. *)
Definition href_test (href : string) : bool :=
  (Py.truthy href && Py.startswith href "https://") || Py.startswith href "/".

Section WithCollaborators.

(** [urllib.parse.urljoin], [None] when it raises [ValueError]. *)
Variable urljoin : string → string → option string.
(** The site being crawled. *)
Variable web : string → reply.
Variable original_url : string.

(** The body of the [for anchor in soup.find_all('a')] loop; [self]
    is the recursive call of line 49. *)
Fixpoint for_anchors (self : string → state → outcome) (url : string)
    (anchors : list (option string)) (st : state) : outcome :=
  match anchors with
  | [] => Done st
  | None :: _ =>
      (* [None and ...] is [None], so [None.startswith('/')] is evaluated *)
      Raised AttributeError st
  | Some href :: rest =>
      if href_test href then
        match urljoin url (Py.split_hash_0 href) with
        | None => Raised ValueError st
        | Some absolute_url =>
            if Py.startswith absolute_url original_url then
              if decide (absolute_url ∈ visited_urls st) then
                for_anchors self url rest st
              else
                match self absolute_url (append_child absolute_url st) with
                | Done st' => for_anchors self url rest st'
                | o => o
                end
            else for_anchors self url rest st
        end
      else for_anchors self url rest st
  end.

Fixpoint crawl_page (fuel : nat) (url : string) (st : state) : outcome :=
  match fuel with
  | O => OutOfFuel st
  | S fuel' =>
      let st := log_get url (add_visited url st) in
      match web url with
      | GetRaises => Raised RequestException st
      | Response _ anchors => for_anchors (crawl_page fuel') url anchors st
      end
  end.

(** The conditions under which the loop of [crawl_page url] appends
    [absolute_url] and recurses into it (lines 34 to 43). *)
Definition follows (url href absolute_url : string) (st : state) : Prop :=
  href_test href = true ∧
  urljoin url (Py.split_hash_0 href) = Some absolute_url ∧
  Py.startswith absolute_url original_url = true ∧
  absolute_url ∉ visited_urls st.

End WithCollaborators.

Definition initial : state := State ∅ [] [].

(** The traversal of [main]: [original_url = url], an empty set, an
    empty list, one call of [crawl_page]. *)
Definition traverse (urljoin : string → string → option string)
    (web : string → reply) (fuel : nat) (url : string) : outcome :=
  crawl_page urljoin web url fuel url initial.

(** *** Writing the result (lines 63 to 67)

    A file is kept as the rows given to [csv.writer], the file system
    as a map from names to files. *)
Definition open_w (name : string) (files : gmap string (list (list string))) :
    gmap string (list (list string)) :=
  <[name := []]> files.

Definition writerow (name : string) (row : list string)
    (files : gmap string (list (list string))) : gmap string (list (list string)) :=
  alter (λ rows : list (list string), (rows ++ [row])%list) name files.

Definition writerows (name : string) (rows : list (list string))
    (files : gmap string (list (list string))) : gmap string (list (list string)) :=
  foldl (λ fs row, writerow name row fs) files rows.

(** [main], with the URL read from the terminal as an argument.  An
    exception of the traversal leaves [main] before the file is opened. *)
Definition main (urljoin : string → string → option string)
    (web : string → reply) (fuel : nat) (url : string)
    (files : gmap string (list (list string))) :
    outcome * gmap string (list (list string)) :=
  match traverse urljoin web fuel url with
  | Done st =>
      let files := open_w "child_urls.csv" files in
      let files := writerow "child_urls.csv" ["Child URLs"] files in
      let files :=
        writerows "child_urls.csv"
          (map (λ child_url, [child_url]) (child_urls st)) files in
      (Done st, files)
  | o => (o, files)
  end.

End Crawler.

(** ** The response parser, [analyze-reddit-topic.py] *)
Module Analyzer.

(** The values [json.loads] can return. *)
#[local] Unset Elimination Schemes.
Inductive json : Type :=
| JNull
| JBool (b : bool)
| JInt (n : Z)
| JFloat (lexeme : string)
| JString (s : string)
| JArray (items : list json)
| JObject (members : list (string * json)).

(** [isinstance(v, dict)] *)
Definition is_dict (v : json) : bool :=
  match v with
  | JObject _ => true
  | _ => false
  end.

(** The longest prefix of [s] that ends with a closing brace. *)
Fixpoint through_last_brace (s : string) : option string :=
  match s with
  | EmptyString => None
  | String c s' =>
      match through_last_brace s' with
      | Some m => Some (String c m)
      | None => if Ascii.eqb c "}"%char then Some (String c EmptyString) else None
      end
  end.

(** [re.search(r'\{[\s\S]*\}', content, re.DOTALL)], then [.group()]:
    the leftmost position where the pattern matches, and from there
    the longest match, since the star is greedy. *)
Fixpoint re_search (content : string) : option string :=
  match content with
  | EmptyString => None
  | String c rest =>
      if Ascii.eqb c "{"%char then
        match through_last_brace rest with
        | Some m => Some (String c m)
        | None => re_search rest
        end
      else re_search rest
  end.

Section WithDecoder.

(** [json.loads], [None] when it raises [json.JSONDecodeError]. *)
Variable json_loads : string → option json.

Definition parse_openai_response (content : string) : json :=
  match json_loads content with
  | Some v => v
  | None =>
      match re_search content with
      | Some json_match =>
          match json_loads json_match with
          | Some v => v
          | None => JObject []
          end
      | None => JObject []
      end
  end.

End WithDecoder.

End Analyzer.

Import Crawler.

(** ** The analysis loop, [analyze-reddit-topic.py] *)
Module Topics.

Import Analyzer.

(** The exceptions that can leave [analyze_reddit_topics]. *)
Inductive exn : Type :=
| KeyError
| TypeError.

(** A computation that returns or raises. *)
Definition bind {A B : Type} (m : exn + A) (k : A → exn + B) : exn + B :=
  match m with
  | inl e => inl e
  | inr a => k a
  end.

Notation "x <- m ;; k" := (bind m (λ x, k))
  (at level 100, m at next level, right associativity).

(** *** Python dictionaries with string keys

    A dictionary is kept as its items in insertion order; [JObject]
    carries the items of the dictionary [json.loads] built. *)
Fixpoint dict_get (d : list (string * json)) (k : string) : option json :=
  match d with
  | [] => None
  | (k', v) :: d' => if String.eqb k' k then Some v else dict_get d' k
  end.

(** [d[k] = v]: a key that is present keeps its place. *)
Fixpoint dict_set (d : list (string * json)) (k : string) (v : json) :
    list (string * json) :=
  match d with
  | [] => [(k, v)]
  | (k', v') :: d' =>
      if String.eqb k' k then (k', v) :: d' else (k', v') :: dict_set d' k v
  end.

(** [sub in s] for two strings. *)
Fixpoint contains (s sub : string) : bool :=
  Py.startswith s sub ||
  match s with
  | EmptyString => false
  | String _ s' => contains s' sub
  end.

(** [v == k] for a decoded value [v] and a string [k]. *)
Definition eq_str (v : json) (k : string) : bool :=
  match v with
  | JString s => String.eqb s k
  | _ => false
  end.

Section WithFloats.

(** Whether the float written as [lexeme] equals zero. *)
Variable float_is_zero : string → bool.

(** The truth value of a decoded value. *)
Definition truthy (v : json) : bool :=
  match v with
  | JNull => false
  | JBool b => b
  | JInt n => negb (n =? 0)%Z
  | JFloat lexeme => negb (float_is_zero lexeme)
  | JString s => Py.truthy s
  | JArray items => match items with [] => false | _ => true end
  | JObject members => match members with [] => false | _ => true end
  end.

(** [k in v]: a key of a dictionary, an element of a list, a part of a
    string; the other values are not containers. *)
Definition py_in (k : string) (v : json) : exn + bool :=
  match v with
  | JObject members => inr (bool_decide (is_Some (dict_get members k)))
  | JArray items => inr (existsb (λ item, eq_str item k) items)
  | JString s => inr (contains s k)
  | _ => inl TypeError
  end.

(** [v[k]] for a string [k]. *)
Definition subscript (v : json) (k : string) : exn + json :=
  match v with
  | JObject members =>
      match dict_get members k with
      | Some x => inr x
      | None => inl KeyError
      end
  | _ => inl TypeError
  end.

(** A post, with what the script reads of it; a comment is the pair of
    its author, as the f-string of line 143 prints it, and its body. *)
Record post : Type := Post {
  title : string;
  selftext : string;
  permalink : string;
  comments : list (string * string)
}.

(** [f"question{i}"] for a digit [i]. *)
Definition question_key (i : nat) : string :=
  "question" ++ String (Ascii.ascii_of_nat (48 + i)) EmptyString.

(** [analysis["status"] in ["feature_not_supported", ...]] *)
Definition status_asks (status : json) : bool :=
  eq_str status "feature_not_supported" ||
  eq_str status "feature_supported_but_not_easy_to_use".

(** The body of the loop of line 173. *)
Definition add_question (analysis : json) (result : list (string * json))
    (i : nat) : exn + list (string * json) :=
  present <- py_in (question_key i) analysis ;;
  if present then
    v <- subscript analysis (question_key i) ;;
    if truthy v then
      v' <- subscript analysis (question_key i) ;;
      inr (dict_set result (question_key i) v')
    else inr result
  else inr result.

Fixpoint for_questions (analysis : json) (range : list nat)
    (result : list (string * json)) : exn + list (string * json) :=
  match range with
  | [] => inr result
  | i :: range' =>
      result' <- add_question analysis result i ;;
      for_questions analysis range' result'
  end.

Definition create_result_dict (subreddit_name : string) (p : post)
    (analysis : json) : exn + list (string * json) :=
  summary <- subscript analysis "summary" ;;
  status <- subscript analysis "status" ;;
  let result :=
    [ ("subreddit", JString subreddit_name);
      ("postUrl", JString ("https://www.reddit.com" ++ permalink p));
      ("postTitle", JString (title p));
      ("summary", summary);
      ("status", status) ] in
  status' <- subscript analysis "status" ;;
  if status_asks status' then for_questions analysis [1; 2; 3]%nat result
  else inr result.

(** The test of line 146,
    [analysis and "summary" in analysis and "status" in analysis]. *)
Definition has_summary_and_status (analysis : json) : exn + bool :=
  if truthy analysis then
    has_summary <- py_in "summary" analysis ;;
    if has_summary then py_in "status" analysis else inr false
  else inr false.

(** *** The loop *)

(** The list of results, the files (a file written by [json.dump] is
    kept as the list it was given), and the posts handed to
    [analyze_post] so far, oldest first. *)
Record state : Type := State {
  all_results : list (list (string * json));
  files : gmap string (list (list (string * json)));
  analysed : list (string * post)
}.

Inductive outcome : Type :=
| Done (st : state)
| Raised (e : exn) (st : state).

Definition final (o : outcome) : state :=
  match o with
  | Done st | Raised _ st => st
  end.

(** [update_files]: the file is opened for writing and the whole list
    is dumped. *)
Definition update_files (results : list (list (string * json)))
    (output_file : string)
    (fs : gmap string (list (list (string * json)))) :
    gmap string (list (list (string * json))) :=
  <[output_file := results]> fs.

(** ["\n".join(...)] of the comments, each as [author: body]. *)
Fixpoint join_comments (cs : list (string * string)) : string :=
  match cs with
  | [] => EmptyString
  | [(author, body)] => author ++ ": " ++ body
  | (author, body) :: cs' =>
      author ++ ": " ++ body ++ String "010"%char (join_comments cs')
  end.

Section WithServices.

(** [json.loads], [None] when it raises [json.JSONDecodeError]. *)
Variable json_loads : string → option json.
(** [str.strip]. *)
Variable strip : string → string.
(** The chat completion requested by [analyze_post], as a function of
    the five strings the two messages are built from; [None] when the
    request, or reading the reply, raises. *)
Variable chat : string → string → string → string → string → option string.
(** [reddit.subreddit(name).new(limit=None)]: the posts of a subreddit,
    newest first. *)
Variable reddit : string → list post.

(** [analyze_post]: every exception of the request is caught and turned
    into the empty dictionary. *)
Definition analyze_post (subreddit_name title body comments my_platform : string) :
    json :=
  match chat subreddit_name title body comments my_platform with
  | Some content => parse_openai_response json_loads (strip content)
  | None => JObject []
  end.

Variable my_platform : string.
Variable output_file : string.
Variable max_posts : Z.

(** The loop over the posts of one subreddit (lines 136 to 153). *)
Fixpoint for_posts (subreddit_name : string) (posts : list post)
    (posts_analyzed : Z) (st : state) : outcome :=
  match posts with
  | [] => Done st
  | p :: rest =>
      if (max_posts <=? posts_analyzed)%Z then Done st
      else
        let analysis :=
          analyze_post subreddit_name (title p) (selftext p)
            (join_comments (comments p)) my_platform in
        let st := State (all_results st) (files st)
                    (analysed st ++ [(subreddit_name, p)]) in
        match has_summary_and_status analysis with
        | inl e => Raised e st
        | inr false => for_posts subreddit_name rest posts_analyzed st
        | inr true =>
            match create_result_dict subreddit_name p analysis with
            | inl e => Raised e st
            | inr result =>
                let results := (all_results st ++ [result])%list in
                for_posts subreddit_name rest (posts_analyzed + 1)
                  (State results (update_files results output_file (files st))
                     (analysed st))
            end
        end
  end.

(** The loop over the subreddits (lines 132 to 153). *)
Fixpoint for_subreddits (subreddit_names : list string) (st : state) : outcome :=
  match subreddit_names with
  | [] => Done st
  | subreddit_name :: names =>
      match for_posts subreddit_name (reddit subreddit_name) 0 st with
      | Done st' => for_subreddits names st'
      | o => o
      end
  end.

(** [analyze_reddit_topics], started with the files [fs]. *)
Definition analyze_reddit_topics (subreddit_names : list string)
    (fs : gmap string (list (list (string * json)))) : outcome :=
  for_subreddits subreddit_names (State [] fs []).

End WithServices.

End WithFloats.

End Topics.

(** ** Concrete collaborators for the examples *)
Module Fixtures.

Fixpoint strip_prefix (p s : string) {struct p} : option string :=
  match p with
  | EmptyString => Some s
  | String c p' =>
      match s with
      | EmptyString => None
      | String d s' => if Ascii.eqb d c then strip_prefix p' s' else None
      end
  end.

Fixpoint before_slash (s : string) : string :=
  match s with
  | EmptyString => EmptyString
  | String c s' => if Ascii.eqb c "/"%char then EmptyString else String c (before_slash s')
  end.

(** Scheme and host of an https URL. *)
Definition origin (base : string) : string :=
  match strip_prefix "https://" base with
  | Some rest => "https://" ++ before_slash rest
  | None => EmptyString
  end.

(** What [urllib.parse.urljoin] gives on the two shapes of reference
    the examples use: an absolute https URL stands for itself, a path
    that starts with a slash replaces the path of the base.  (No dot
    segments, parameters or queries occur in the examples.) *)
Definition urljoin_simple (base href : string) : option string :=
  if Py.startswith href "https://" then Some href
  else Some (origin base ++ href).

(** A site given by its pages; any other URL answers 404 with a body
    that has no anchors. *)
Fixpoint serve (pages : list (string * reply)) (url : string) : reply :=
  match pages with
  | [] => Response 404 []
  | (u, r) :: pages' => if String.eqb u url then r else serve pages' url
  end.

(** The end-to-end scenario of the specification. *)
Definition ex_com : list (string * reply) :=
  [ ("https://ex.com/",
      Response 200 [Some "/a"; Some "https://ex.com/b";
                    Some "https://other.com/c"; Some "/a#dup"]);
    ("https://ex.com/a", Response 200 []);
    ("https://ex.com/b", Response 200 []) ].

(** A -> [B, C], B -> [D]. *)
Definition tree_site : list (string * reply) :=
  [ ("https://t.org/", Response 200 [Some "/b"; Some "/c"]);
    ("https://t.org/b", Response 200 [Some "/d"]);
    ("https://t.org/c", Response 200 []);
    ("https://t.org/d", Response 200 []) ].

(** A -> B -> A. *)
Definition cycle_site : list (string * reply) :=
  [ ("https://c.org/", Response 200 [Some "/b"]);
    ("https://c.org/b", Response 200 [Some "/"]) ].

(** The second page cannot be fetched. *)
Definition flaky_site : list (string * reply) :=
  [ ("https://ex.com/", Response 200 [Some "/a"; Some "/b"]);
    ("https://ex.com/a", GetRaises);
    ("https://ex.com/b", Response 200 []) ].

(** The first anchor of the page has no href attribute. *)
Definition named_anchor_site : list (string * reply) :=
  [ ("https://ex.com/", Response 200 [None; Some "/a"]);
    ("https://ex.com/a", Response 200 []) ].

(** A page of site.com that links to two other hosts. *)
Definition site_com : list (string * reply) :=
  [ ("https://site.com",
      Response 200 [Some "https://other.com/x";
                    Some "https://site.com.evil.com/";
                    Some "https://site.com/blog"]) ].

(** A decoder that knows two documents: the number 42 and the empty
    object.  It stands for [json.loads] in the examples. *)
Definition loads_example (s : string) : option Analyzer.json :=
  if String.eqb s "42" then Some (Analyzer.JInt 42)
  else if String.eqb s "{}" then Some (Analyzer.JObject [])
  else None.

End Fixtures.

Import Fixtures.

(** ** More collaborators for the examples *)
Module MoreFixtures.

(** A resolver that refuses every reference the loop never hands over. *)
Definition urljoin_strict (base href : string) : option string :=
  if href_test href && negb (Py.has_char "#" href)
  then urljoin_simple base href else None.

(** [s] between double quotes. *)
Definition quoted (s : string) : string :=
  String "034"%char (s ++ String "034"%char EmptyString).

(** Three replies of the model: an object that reports an unsupported
    feature with two questions, one of them empty; an object without
    status; and a JSON string. *)
Definition reply_gap_inner : string :=
  quoted "summary" ++ ": " ++ quoted "Can forms work offline?" ++ ", "
    ++ quoted "status" ++ ": " ++ quoted "feature_not_supported" ++ ", "
    ++ quoted "question1" ++ ": " ++ quoted "Does it sync later?" ++ ", "
    ++ quoted "question2" ++ ": " ++ quoted EmptyString.

Definition reply_gap : string := String "{" (reply_gap_inner ++ "}").

Definition reply_no_status : string :=
  "{" ++ quoted "summary" ++ ": " ++ quoted "Is there a dark mode?" ++ "}".

Definition reply_text : string := quoted "summary and status unclear".

Definition analysis_gap : Analyzer.json :=
  Analyzer.JObject
    [ ("summary", Analyzer.JString "Can forms work offline?");
      ("status", Analyzer.JString "feature_not_supported");
      ("question1", Analyzer.JString "Does it sync later?");
      ("question2", Analyzer.JString EmptyString) ].

(** What [json.loads] gives on the three replies; the examples hand it
    no other JSON text. *)
Definition loads_replies (s : string) : option Analyzer.json :=
  if String.eqb s reply_gap then Some analysis_gap
  else if String.eqb s reply_no_status then
    Some (Analyzer.JObject
            [("summary", Analyzer.JString "Is there a dark mode?")])
  else if String.eqb s reply_text then
    Some (Analyzer.JString "summary and status unclear")
  else None.


Definition post_offline : Topics.post :=
  Topics.Post "Offline forms" "Need offline data entry" "/r/AppSheet/1"
    [("ann", "same here"); ("bob", "use sync")].

Definition post_dark : Topics.post :=
  Topics.Post "Dark mode" "Any dark mode?" "/r/AppSheet/2" [].

Definition post_rant : Topics.post :=
  Topics.Post "Rant" "It is slow" "/r/AppSheet/3" [("cy", "yes")].

(** A subreddit with three posts; every other subreddit is empty. *)
Definition reddit_example (name : string) : list Topics.post :=
  if String.eqb name "AppSheet" then [post_offline; post_dark; post_rant]
  else [].

(** The model answers by the title of the post; the request for the
    third post fails. *)
Definition chat_example (subreddit_name title body comments my_platform : string) :
    option string :=
  if String.eqb title "Offline forms" then Some reply_gap
  else if String.eqb title "Dark mode" then Some reply_no_status
  else None.

(** The model answers the third post with a JSON string. *)
Definition chat_text (subreddit_name title body comments my_platform : string) :
    option string :=
  if String.eqb title "Rant" then Some reply_text
  else chat_example subreddit_name title body comments my_platform.

(** A service that is down. *)
Definition chat_down (subreddit_name title body comments my_platform : string) :
    option string := None.

(** No float of the examples is zero (they hold no float). *)
Definition no_float_is_zero (lexeme : string) : bool := false.

(** The texts of the examples have no white space at their ends. *)
Definition strip_none (s : string) : string := s.

End MoreFixtures.

Import MoreFixtures.

(** ** Predicates used in the statements *)

(** What holds of the list of child URLs when a call of [crawl_page]
    ends: no URL occurs twice, and, unless the call was cut off, every
    URL of the list has been added to the set of visited URLs. *)
Definition children_distinct (o : outcome) : Prop :=
  NoDup (child_urls (final o)) ∧
  match o with
  | OutOfFuel _ => True
  | Done st | Raised _ st => Forall (λ u, u ∈ visited_urls st) (child_urls st)
  end.

(** Where the URLs of a state come from, for a traversal that started
    at [start]: a visited URL is [start] or a child URL, every child URL
    starts with [start], and a GET was only issued for a visited URL. *)
Definition scoped (start : string) (st : state) : Prop :=
  set_Forall (λ u, u = start ∨ u ∈ child_urls st) (visited_urls st) ∧
  Forall (λ u, Py.startswith u start = true) (child_urls st) ∧
  Forall (λ u, u ∈ visited_urls st) (requested st).

(** The call returned or raised: it was not cut off for lack of fuel. *)
Definition completes (o : outcome) : Prop :=
  match o with
  | OutOfFuel _ => False
  | Done _ | Raised _ _ => True
  end.

(** [U] holds every URL that the loop can follow from a page of [U]:
    with [U] finite, the link graph under the start URL is finite. *)
Definition link_closed (urljoin : string → string → option string)
    (web : string → reply) (original_url : string) (U : gset string) : Prop :=
  ∀ url status anchors href u,
    url ∈ U → web url = Response status anchors → Some href ∈ anchors →
    href_test href = true →
    urljoin url (Py.split_hash_0 href) = Some u →
    Py.startswith u original_url = true →
    u ∈ U.

(** Each GET was issued once, and for a URL already in the set. *)
Definition fetched_once (st : state) : Prop :=
  NoDup (requested st) ∧ Forall (λ u, u ∈ visited_urls st) (requested st).

(** Two replies with the same anchors, whatever their status codes. *)
Definition same_links (r r' : reply) : Prop :=
  match r, r' with
  | GetRaises, GetRaises => True
  | Response _ anchors, Response _ anchors' => anchors = anchors'
  | _, _ => False
  end.

(** How the GET requests of a call went: unless [requests.get] raised,
    every request so far was answered; when it raised, that request is
    the last one, the ones before it were answered, and its URL is in
    the set of visited URLs. *)
Definition first_failure (web : string → reply) (o : outcome) : Prop :=
  match o with
  | Raised RequestException st =>
      ∃ (l : list string) (u : string), requested st = (l ++ [u])%list ∧
             Forall (λ v, web v ≠ GetRaises) l ∧
             web u = GetRaises ∧ u ∈ visited_urls st
  | Done st | Raised _ st | OutOfFuel st =>
      Forall (λ v, web v ≠ GetRaises) (requested st)
  end.

(** An edge of the link graph as the loop sees it: the page at [u] has an
    anchor whose href passes the test of line 34 and resolves to [v],
    and [v] passes the prefix test of line 41. *)
Definition follows_link (urljoin : string → string → option string)
    (web : string → reply) (original_url : string) (u v : string) : Prop :=
  ∃ status anchors href,
    web u = Response status anchors ∧ Some href ∈ anchors ∧
    href_test href = true ∧
    urljoin u (Py.split_hash_0 href) = Some v ∧
    Py.startswith v original_url = true.

(** The order of the GET requests against the order of the list: the
    requests went to the start URL and then to the child URLs, one by
    one as they were appended.  A call that was cut off had appended
    its URL and not yet requested it. *)
Definition fetch_order (start : string) (o : outcome) : Prop :=
  match o with
  | Done st | Raised _ st => requested st = start :: child_urls st
  | OutOfFuel st =>
      ∃ url, (requested st ++ [url])%list = start :: child_urls st ∧
             url ∉ visited_urls st
  end.

(** Two resolvers that agree wherever the loop can call them: on a base
    that starts with the start URL and a reference that passes the test
    of line 34 and has no hash. *)
Definition agree_where_called (original_url : string)
    (urljoin urljoin' : string → string → option string) : Prop :=
  ∀ base href,
    Py.startswith base original_url = true →
    href_test href = true → Py.has_char "#" href = false →
    urljoin base href = urljoin' base href.

(** *** The analysis loop *)

(** The five entries every result starts with. *)
Definition base_result (subreddit_name : string) (p : Topics.post)
    (summary status : Analyzer.json) : list (string * Analyzer.json) :=
  [ ("subreddit", Analyzer.JString subreddit_name);
    ("postUrl", Analyzer.JString ("https://www.reddit.com" ++ Topics.permalink p));
    ("postTitle", Analyzer.JString (Topics.title p));
    ("summary", summary);
    ("status", status) ].

(** The questions of an analysis that are present and true, in the
    order of their numbers. *)
Definition kept_questions (float_is_zero : string → bool)
    (d : list (string * Analyzer.json)) : list (string * Analyzer.json) :=
  omap (λ k, match Topics.dict_get d k with
             | Some v => if Topics.truthy float_is_zero v then Some (k, v) else None
             | None => None
             end)
    ["question1"; "question2"; "question3"].

(** The result a post contributes when its analysis passes the test of
    line 146 and [create_result_dict] returns. *)
Definition accepted (float_is_zero : string → bool) (subreddit_name : string)
    (p : Topics.post) (analysis : Analyzer.json) :
    option (list (string * Analyzer.json)) :=
  match Topics.has_summary_and_status float_is_zero analysis with
  | inr true =>
      match Topics.create_result_dict float_is_zero subreddit_name p analysis with
      | inr result => Some result
      | inl _ => None
      end
  | _ => None
  end.

(** The analysis the loop obtains for a post. *)
Definition analysis_of (json_loads : string → option Analyzer.json)
    (strip : string → string)
    (chat : string → string → string → string → string → option string)
    (my_platform : string) (subreddit_name : string) (p : Topics.post) :
    Analyzer.json :=
  Topics.analyze_post json_loads strip chat subreddit_name (Topics.title p)
    (Topics.selftext p) (Topics.join_comments (Topics.comments p)) my_platform.

(** The state once [analyze_post] has been called for a post. *)
Definition after_analysis (subreddit_name : string) (p : Topics.post)
    (st : Topics.state) : Topics.state :=
  Topics.State (Topics.all_results st) (Topics.files st)
    (Topics.analysed st ++ [(subreddit_name, p)]).

(** The state once a result has been appended and the file rewritten. *)
Definition after_result (output_file : string)
    (result : list (string * Analyzer.json)) (st : Topics.state) :
    Topics.state :=
  Topics.State (Topics.all_results st ++ [result])
    (Topics.update_files (Topics.all_results st ++ [result]) output_file
       (Topics.files st))
    (Topics.analysed st).

(** ** Facts about the string operations *)
Section PyFacts.

#[local] Arguments String.append !_ _ / : simpl nomatch.

Lemma startswith_app (p t : string) : Py.startswith (p ++ t) p = true.
Proof.
  induction p as [|c p IH]; simpl; [done|].
  by rewrite Ascii.eqb_refl.
Qed.

Lemma startswith_inv (s p : string) :
  Py.startswith s p = true → ∃ t, s = p ++ t.
Proof.
  revert s. induction p as [|c p IH]; intros s H; simpl in *.
  - by exists s.
  - destruct s as [|d s]; [done|].
    destruct (Ascii.eqb_spec d c) as [->|]; [|done].
    destruct (IH _ H) as [t ->]. by exists t.
Qed.

Lemma startswith_refl (s : string) : Py.startswith s s = true.
Proof.
  induction s as [|c s IH]; simpl; [done|].
  by rewrite Ascii.eqb_refl.
Qed.

(** Whatever follows the first ['#'] is dropped. *)
Lemma split_hash_0_fragment (s t : string) :
  Py.split_hash_0 (s ++ String "#" t) = Py.split_hash_0 s.
Proof.
  induction s as [|c s IH]; simpl; [done|].
  destruct (Ascii.eqb c "#"); [done|]. by rewrite IH.
Qed.

(** The accepting test on a string is the plain disjunction: the
    grouping of line 34 changes nothing once [href] is a string. *)
Lemma href_test_spec (href : string) :
  href_test href = Py.startswith href "https://" || Py.startswith href "/".
Proof. by destruct href. Qed.

Lemma split_hash_0_app (p t : string) :
  Py.split_hash_0 p = p → Py.split_hash_0 (p ++ t) = p ++ Py.split_hash_0 t.
Proof.
  induction p as [|c p IH]; simpl; [done|].
  destruct (Ascii.eqb c "#"); [done|].
  intros [= Hp]. by rewrite IH.
Qed.

Lemma startswith_split_hash_0 (s p : string) :
  Py.split_hash_0 p = p →
  Py.startswith s p = true → Py.startswith (Py.split_hash_0 s) p = true.
Proof.
  intros Hp [t ->]%startswith_inv.
  rewrite split_hash_0_app by done. apply startswith_app.
Qed.

(** Stripping the fragment keeps an accepted href accepted: what
    reaches [urljoin] still starts with ["https://"] or ["/"]. *)
Lemma href_test_split_hash_0 (href : string) :
  href_test href = true → href_test (Py.split_hash_0 href) = true.
Proof.
  rewrite !href_test_spec. intros [H|H]%orb_true_iff; apply orb_true_iff.
  - left. by apply startswith_split_hash_0.
  - right. by apply startswith_split_hash_0.
Qed.

End PyFacts.

(** ** Reasoning rules for the loop and for the recursion *)
Section LoopRule.

Variable urljoin : string → string → option string.
Variable original_url : string.

(** Loop rule: [R (Done _)] is the loop invariant. *)
Lemma for_anchors_rule (R : outcome → Prop)
    (self : string → state → outcome) (url : string)
    (anchors : list (option string)) :
  (∀ e st, e ≠ RequestException → R (Done st) → R (Raised e st)) →
  (∀ href absolute_url st,
      Some href ∈ anchors → R (Done st) → follows urljoin original_url url href absolute_url st →
      R (self absolute_url (append_child absolute_url st))) →
  ∀ st, R (Done st) → R (for_anchors urljoin original_url self url anchors st).
Proof.
  intros Hexn Hstep.
  assert (∀ l st, l ⊆ anchors → R (Done st) →
            R (for_anchors urljoin original_url self url l st)) as Hgen.
  { induction l as [|[href|] l IH]; intros st Hl Hst; simpl.
    - done.
    - assert (l ⊆ anchors) as Hl' by set_solver.
      destruct (href_test href) eqn:Htest; [|by apply IH].
      destruct (urljoin url (Py.split_hash_0 href)) as [u|] eqn:Hjoin;
        [|by apply Hexn].
      destruct (Py.startswith u original_url) eqn:Hscope; [|by apply IH].
      case_decide as Hvis; [by apply IH|].
      assert (R (self u (append_child u st))) as Hcall.
      { apply (Hstep href); [set_solver|done|done]. }
      destruct (self u (append_child u st)); [by apply IH|done|done].
    - by apply Hexn. }
  intros st. by apply Hgen.
Qed.

End LoopRule.

Section CrawlerRules.

Variable urljoin : string → string → option string.
Variable web : string → reply.
Variable original_url : string.

(** Recursion rule: [Pre] holds when a call starts, [R] of its outcome
    when it ends, whatever the fuel. *)
Lemma crawl_page_rule (Pre : string → state → Prop) (R : outcome → Prop) :
  (∀ url st, Pre url st → R (OutOfFuel st)) →
  (∀ url st, Pre url st → web url = GetRaises →
      R (Raised RequestException (log_get url (add_visited url st)))) →
  (∀ url st status anchors, Pre url st → web url = Response status anchors →
      R (Done (log_get url (add_visited url st)))) →
  (∀ e st, e ≠ RequestException → R (Done st) → R (Raised e st)) →
  (∀ url href absolute_url st, R (Done st) → follows urljoin original_url url href absolute_url st →
      Pre absolute_url (append_child absolute_url st)) →
  ∀ fuel url st, Pre url st →
    R (crawl_page urljoin web original_url fuel url st).
Proof.
  intros Hfuel Hget Henter Hexn Hcall.
  induction fuel as [|fuel IH]; intros url st Hpre; simpl.
  - by apply (Hfuel url).
  - destruct (web url) as [|status anchors] eqn:Hweb.
    + by apply Hget.
    + apply for_anchors_rule; [done| |by eapply Henter].
      intros href u st' _ Hst' Hfol. apply IH. by eapply Hcall.
Qed.

(** The set of visited URLs only grows. *)
Lemma crawl_page_visited_mono (fuel : nat) (url : string) (st : state) :
  visited_urls st ⊆
    visited_urls (final (crawl_page urljoin web original_url fuel url st)).
Proof.
  apply (crawl_page_rule (λ _ st', visited_urls st ⊆ visited_urls st')
           (λ o, visited_urls st ⊆ visited_urls (final o)));
    simpl; try done; set_solver.
Qed.

End CrawlerRules.


(** ** One turn of the loop, case by case *)
Section LoopSteps.

Variable urljoin : string → string → option string.
Variable original_url : string.
Variable self : string → state → outcome.

Lemma for_anchors_nil (url : string) (st : state) :
  for_anchors urljoin original_url self url [] st = Done st.
Proof. reflexivity. Qed.

Lemma for_anchors_rejected (url href : string) (rest : list (option string))
    (st : state) :
  href_test href = false →
  for_anchors urljoin original_url self url (Some href :: rest) st
  = for_anchors urljoin original_url self url rest st.
Proof. intros H. simpl. by rewrite H. Qed.

Lemma for_anchors_out_of_scope (url href u : string)
    (rest : list (option string)) (st : state) :
  href_test href = true →
  urljoin url (Py.split_hash_0 href) = Some u →
  Py.startswith u original_url = false →
  for_anchors urljoin original_url self url (Some href :: rest) st
  = for_anchors urljoin original_url self url rest st.
Proof. intros H1 H2 H3. simpl. by rewrite H1, H2, H3. Qed.

Lemma for_anchors_seen (url href u : string) (rest : list (option string))
    (st : state) :
  href_test href = true →
  urljoin url (Py.split_hash_0 href) = Some u →
  u ∈ visited_urls st →
  for_anchors urljoin original_url self url (Some href :: rest) st
  = for_anchors urljoin original_url self url rest st.
Proof.
  intros H1 H2 H3. simpl. rewrite H1, H2.
  destruct (Py.startswith u original_url); [|done].
  by rewrite decide_True.
Qed.

Lemma for_anchors_follow (url href u : string) (rest : list (option string))
    (st : state) :
  follows urljoin original_url url href u st →
  for_anchors urljoin original_url self url (Some href :: rest) st
  = match self u (append_child u st) with
    | Done st' => for_anchors urljoin original_url self url rest st'
    | o => o
    end.
Proof.
  intros (H1 & H2 & H3 & H4). simpl. rewrite H1, H2, H3.
  by rewrite decide_False.
Qed.

End LoopSteps.

(** ** Invariants of the traversal *)

Lemma crawl_page_children_distinct (urljoin : string → string → option string)
    (web : string → reply) (original_url : string) (fuel : nat)
    (url : string) (st : state) :
  NoDup (child_urls st) →
  Forall (λ u, u ∈ ({[url]} : gset string) ∪ visited_urls st) (child_urls st) →
  children_distinct (crawl_page urljoin web original_url fuel url st).
Proof.
  intros Hnd Hin.
  apply (crawl_page_rule urljoin web original_url
           (λ url st, NoDup (child_urls st) ∧
              Forall (λ u, u ∈ ({[url]} : gset string) ∪ visited_urls st)
                (child_urls st))
           children_distinct); [| | | | |done].
  - by intros ?? [??].
  - by intros ?? [??] _.
  - by intros ???? [??] _.
  - by intros ?? _ [??].
  - intros url' href u st' [Hnd' Hvis'] (_ & _ & _ & Hnew). simpl in *. split.
    + apply NoDup_app. split_and!; [done| |apply NoDup_singleton].
      intros x Hx. rewrite list_elem_of_singleton. intros ->.
      rewrite Forall_forall in Hvis'. by apply Hnew, Hvis'.
    + apply Forall_app. split.
      * eapply Forall_impl; [done|]. set_solver.
      * apply Forall_singleton. set_solver.
Qed.

(** C6: at whatever depth the traversal of [main] is observed, and when
    it has ended (normally or by an exception), no URL occurs twice in
    the list of child URLs: its length is the size of the set of its
    elements.  When the traversal was not cut off, every URL of the list
    is in the set of visited URLs, which is why a later occurrence of the
    same URL is skipped. *)
Theorem discovered_list_has_no_duplicates
    (urljoin : string → string → option string) (web : string → reply)
    (fuel : nat) (url : string) :
  let o := traverse urljoin web fuel url in
  NoDup (child_urls (final o)) ∧
  length (child_urls (final o))
    = size (list_to_set (child_urls (final o)) : gset string) ∧
  children_distinct o.
Proof.
  assert (children_distinct (traverse urljoin web fuel url)) as H.
  { apply crawl_page_children_distinct; simpl; [apply NoDup_nil_2|done]. }
  simpl. destruct H as [Hnd Hvis]. split_and!; [done| |done].
  by rewrite size_list_to_set.
Qed.

Lemma crawl_page_scoped (urljoin : string → string → option string)
    (web : string → reply) (start : string) (fuel : nat)
    (url : string) (st : state) :
  url = start ∨ url ∈ child_urls st →
  scoped start st →
  scoped start (final (crawl_page urljoin web start fuel url st)).
Proof.
  intros Hurl Hst.
  assert (∀ url st, (url = start ∨ url ∈ child_urls st) ∧ scoped start st →
            scoped start (log_get url (add_visited url st))) as Henter.
  { intros url' st' [Hu (Hv & Hc & Hr)]. split_and!; simpl.
    - intros u [->%elem_of_singleton|Hu']%elem_of_union; [done|by apply Hv].
    - done.
    - apply Forall_app. split.
      + eapply Forall_impl; [done|]. intros x Hx. apply elem_of_union. by right.
      + apply Forall_singleton, elem_of_union. left. by apply elem_of_singleton. }
  apply (crawl_page_rule urljoin web start
           (λ url st, (url = start ∨ url ∈ child_urls st) ∧ scoped start st)
           (λ o, scoped start (final o))); [| | | | |done].
  - by intros ?? [??].
  - intros ??? _. by apply Henter.
  - intros ????? _. by apply Henter.
  - done.
  - intros url' href u st' (Hv & Hc & Hr) (_ & _ & Hscope & _). simpl in *.
    split; [right; apply elem_of_app; right; by apply list_elem_of_singleton|].
    split_and!; simpl.
    + intros x Hx. destruct (Hv x Hx) as [->|?]; [by left|].
      right. apply elem_of_app. by left.
    + apply Forall_app. split; [done|by apply Forall_singleton].
    + done.
Qed.

Lemma traverse_scoped (urljoin : string → string → option string)
    (web : string → reply) (fuel : nat) (url : string) :
  scoped url (final (traverse urljoin web fuel url)).
Proof.
  apply crawl_page_scoped; [by left|].
  split_and!; simpl; [by intros ? ?%not_elem_of_empty|done|done].
Qed.

(** C9: in every state of the traversal of [main], the set of visited
    URLs holds the start URL and child URLs only, and every one of them
    starts with the start URL: the prefix test comes before the call
    that adds a URL to the set.  A GET is only issued for a URL of the
    set, so never for a URL outside the scope. *)
Theorem visited_only_in_scope
    (urljoin : string → string → option string) (web : string → reply)
    (fuel : nat) (url : string) :
  let st := final (traverse urljoin web fuel url) in
  set_Forall (λ u, u = url ∨ u ∈ child_urls st) (visited_urls st) ∧
  set_Forall (λ u, Py.startswith u url = true) (visited_urls st) ∧
  Forall (λ u, u ∈ visited_urls st) (requested st) ∧
  Forall (λ u, Py.startswith u url = true) (requested st).
Proof.
  destruct (traverse_scoped urljoin web fuel url) as (Hv & Hc & Hr).
  simpl.
  assert (set_Forall (λ u, Py.startswith u url = true)
            (visited_urls (final (traverse urljoin web fuel url)))) as Hs.
  { intros u Hu. destruct (Hv u Hu) as [->|Hu'].
    - apply startswith_refl.
    - rewrite Forall_forall in Hc. by apply Hc. }
  split_and!; [done|done|done|].
  eapply Forall_impl; [exact Hr|]. intros u Hu. by apply Hs.
Qed.

(** C7: the scope test is a comparison of characters.  [startswith] holds
    exactly when the second string is an initial segment of the first;
    in the loop, a resolved URL that is not yet visited is followed when
    it starts with the start URL and passed over when it does not; so
    every child URL starts with the start URL and
    [https://other.com/x] is never a child URL of a traversal started at
    [https://site.com], whereas [https://site.com.evil.com/] passes the
    test and is listed. *)
Theorem scope_is_literal_prefix :
  (∀ s p : string, Py.startswith s p = true ↔ ∃ t, s = p ++ t) ∧
  (∀ urljoin original_url self url href u rest st,
      href_test href = true →
      urljoin url (Py.split_hash_0 href) = Some u →
      u ∉ visited_urls st →
      for_anchors urljoin original_url self url (Some href :: rest) st
      = if Py.startswith u original_url then
          match self u (append_child u st) with
          | Done st' => for_anchors urljoin original_url self url rest st'
          | o => o
          end
        else for_anchors urljoin original_url self url rest st) ∧
  (∀ urljoin web fuel url,
      Forall (λ u, Py.startswith u url = true)
        (child_urls (final (traverse urljoin web fuel url)))) ∧
  (∀ urljoin web fuel,
      "https://other.com/x"
        ∉ child_urls (final (traverse urljoin web fuel "https://site.com"))) ∧
  Py.startswith "https://site.com.evil.com/" "https://site.com" = true ∧
  child_urls (final (traverse urljoin_simple (serve site_com) 2
                       "https://site.com"))
  = ["https://site.com.evil.com/"; "https://site.com/blog"].
Proof.
  split_and!.
  - intros s p. split; [apply startswith_inv|].
    intros [t ->]. apply startswith_app.
  - intros urljoin original_url self url href u rest st H1 H2 H3.
    destruct (Py.startswith u original_url) eqn:Hs.
    + by apply for_anchors_follow.
    + by eapply for_anchors_out_of_scope.
  - intros. apply traverse_scoped.
  - intros urljoin web fuel Hin.
    pose proof (traverse_scoped urljoin web fuel "https://site.com")
      as (_ & Hc & _).
    rewrite Forall_forall in Hc. by specialize (Hc _ Hin).
  - done.
  - by vm_compute.
Qed.

Lemma scope_is_literal_prefix_witness :
  for_anchors urljoin_simple "https://site.com" (λ _ st, Done st)
    "https://site.com" [Some "https://other.com/x"] initial
  = Done initial.
Proof.
  destruct scope_is_literal_prefix as (_ & Hloop & _).
  rewrite (Hloop urljoin_simple "https://site.com" (λ _ st, Done st)
             "https://site.com" "https://other.com/x" "https://other.com/x"
             [] initial); [reflexivity|reflexivity|reflexivity|].
  simpl. apply not_elem_of_empty.
Defined.

(** ** Termination *)

Lemma crawl_page_S (urljoin : string → string → option string)
    (web : string → reply) (original_url : string) (fuel : nat)
    (url : string) (st : state) :
  crawl_page urljoin web original_url (S fuel) url st
  = match web url with
    | GetRaises => Raised RequestException (log_get url (add_visited url st))
    | Response _ anchors =>
        for_anchors urljoin original_url
          (crawl_page urljoin web original_url fuel) url anchors
          (log_get url (add_visited url st))
    end.
Proof. reflexivity. Qed.

Lemma size_difference_mono (U V V' : gset string) :
  V ⊆ V' → (size (U ∖ V') ≤ size (U ∖ V))%nat.
Proof. intros H. apply subseteq_size. set_solver. Qed.

Lemma size_difference_add (U V : gset string) (x : string) :
  x ∈ U → x ∉ V → (S (size (U ∖ ({[x]} ∪ V))) ≤ size (U ∖ V))%nat.
Proof.
  intros HU HV.
  assert (U ∖ V = {[x]} ∪ U ∖ ({[x]} ∪ V)) as ->.
  { apply set_eq. intros y. destruct (decide (y = x)); set_solver. }
  rewrite (size_union (C:=gset string) {[x]} (U ∖ ({[x]} ∪ V))); [|set_solver].
  rewrite (size_singleton (C:=gset string) x). lia.
Qed.

(** The nesting of calls is bounded by the number of URLs of [U] that
    are not yet visited. *)
Lemma crawl_page_completes (urljoin : string → string → option string)
    (web : string → reply) (original_url : string) (U : gset string) :
  link_closed urljoin web original_url U →
  ∀ fuel url st,
    url ∈ U → url ∉ visited_urls st → (size (U ∖ visited_urls st) ≤ fuel)%nat →
    completes (crawl_page urljoin web original_url fuel url st).
Proof.
  intros Hclosed. induction fuel as [|fuel IH]; intros url st HU Hnew Hsize.
  - pose proof (size_difference_add U (visited_urls st) url HU Hnew). lia.
  - rewrite crawl_page_S.
    destruct (web url) as [|status anchors] eqn:Hweb; [done|].
    apply (for_anchors_rule urljoin original_url
             (λ o, completes o ∧
                   match o with
                   | Done st' => (size (U ∖ visited_urls st') ≤ fuel)%nat
                   | _ => True
                   end)); [done| |].
    + intros href u st' Hin [_ Hst'] Hfol.
      pose proof Hfol as (Htest & Hjoin & Hscope & Hu).
      assert (u ∈ U) as HuU by by eapply Hclosed.
      split; [by apply IH|].
      pose proof (crawl_page_visited_mono urljoin web original_url fuel u
                    (append_child u st')) as Hmono.
      destruct (crawl_page urljoin web original_url fuel u (append_child u st'));
        [|done|done].
      simpl in Hmono. etrans; [by apply size_difference_mono|done].
    + split; [done|]. simpl.
      pose proof (size_difference_add U (visited_urls st) url HU Hnew). lia.
Qed.

Lemma crawl_page_fetched_once (urljoin : string → string → option string)
    (web : string → reply) (original_url : string) (fuel : nat)
    (url : string) (st : state) :
  url ∉ visited_urls st → fetched_once st →
  fetched_once (final (crawl_page urljoin web original_url fuel url st)).
Proof.
  intros Hnew Hst.
  assert (∀ url st, (url ∉ visited_urls st) ∧ fetched_once st →
            fetched_once (log_get url (add_visited url st))) as Henter.
  { intros url' st' [Hu [Hnd Hin]]. rewrite Forall_forall in Hin.
    split; simpl.
    - apply NoDup_app. split_and!; [done| |apply NoDup_singleton].
      intros x Hx ->%list_elem_of_singleton. by apply Hu, Hin.
    - apply Forall_app. split.
      + apply Forall_forall. intros x Hx. apply elem_of_union. right. by apply Hin.
      + apply Forall_singleton, elem_of_union. left. by apply elem_of_singleton. }
  apply (crawl_page_rule urljoin web original_url
           (λ url st, (url ∉ visited_urls st) ∧ fetched_once st)
           (λ o, fetched_once (final o))); [| | | | |done].
  - by intros ?? [??].
  - intros ??? _. by apply Henter.
  - intros ????? _. by apply Henter.
  - done.
  - by intros url' href u st' Hst' (_ & _ & _ & Hu).
Qed.

(** C5: on a finite link graph the traversal ends, cycles or not.  If a
    finite set [U] holds the start URL and every URL the loop can follow
    from a page of [U], then no call nests deeper than [size U]: with
    that much fuel the traversal returns or raises.  The reason is in
    the second part: a GET is issued only for a URL that was just added
    to the set of visited URLs, and never twice for the same URL.  In
    the graph A -> B -> A the traversal returns and the list of child
    URLs is [B]. *)
Theorem cycle_safety :
  (∀ urljoin web url (U : gset string) fuel,
      link_closed urljoin web url U → url ∈ U → (size U ≤ fuel)%nat →
      completes (traverse urljoin web fuel url)) ∧
  (∀ urljoin web fuel url,
      fetched_once (final (traverse urljoin web fuel url))) ∧
  (∀ urljoin web (A B hrefB hrefA : string) statusA statusB fuel,
      web A = Response statusA [Some hrefB] →
      web B = Response statusB [Some hrefA] →
      href_test hrefB = true → href_test hrefA = true →
      urljoin A (Py.split_hash_0 hrefB) = Some B →
      urljoin B (Py.split_hash_0 hrefA) = Some A →
      Py.startswith B A = true → A ≠ B → (2 ≤ fuel)%nat →
      ∃ st, traverse urljoin web fuel A = Done st ∧
            child_urls st = [B] ∧ requested st = [A; B]).
Proof.
  split_and!.
  - intros urljoin web url U fuel Hclosed HU Hsize.
    apply (crawl_page_completes urljoin web url U Hclosed); [done| |].
    + apply not_elem_of_empty.
    + simpl. by rewrite difference_empty_L.
  - intros urljoin web fuel url. apply crawl_page_fetched_once.
    + apply not_elem_of_empty.
    + split; simpl; [apply NoDup_nil_2|done].
  - intros urljoin web A B hrefB hrefA statusA statusB fuel
      HwA HwB HtB HtA HjB HjA Hscope Hne Hfuel.
    destruct fuel as [|[|fuel]]; [lia|lia|]. unfold traverse.
    rewrite crawl_page_S, HwA.
    rewrite (for_anchors_follow _ _ _ A hrefB B).
    2:{ split_and!; [done|done|done|]. simpl. set_solver. }
    rewrite crawl_page_S, HwB.
    rewrite (for_anchors_seen _ _ _ B hrefA A); [|done|done|simpl; set_solver].
    simpl. eauto.
Qed.

Lemma cycle_safety_witness :
  completes (traverse urljoin_simple (serve cycle_site) 2 "https://c.org/") ∧
  ∃ st, traverse urljoin_simple (serve cycle_site) 2 "https://c.org/" = Done st ∧
        child_urls st = ["https://c.org/b"] ∧
        requested st = ["https://c.org/"; "https://c.org/b"].
Proof.
  destruct cycle_safety as (Hfin & _ & Hcycle). split.
  - apply (Hfin urljoin_simple (serve cycle_site) "https://c.org/"
             {["https://c.org/"; "https://c.org/b"]}).
    + intros url status anchors href u HU Hweb Hin _ Hjoin _.
      apply elem_of_union in HU as [HU|HU]; apply elem_of_singleton in HU;
        subst url; vm_compute in Hweb; injection Hweb as _ <-;
        apply list_elem_of_singleton in Hin; injection Hin as ->;
        vm_compute in Hjoin; injection Hjoin as <-; set_solver.
    + set_solver.
    + reflexivity.
  - apply (Hcycle urljoin_simple (serve cycle_site) "https://c.org/"
             "https://c.org/b" "/b" "/" 200%Z 200%Z 2);
      [reflexivity|reflexivity|reflexivity|reflexivity|reflexivity|reflexivity
      |reflexivity|discriminate|lia].
Defined.

(** ** Order of discovery *)

(** C4: the traversal is depth first, in document order.  When the loop
    follows a link, the URL is appended, the recursive call runs to its
    end, and only then is the rest of the anchors processed, from the
    state that call left; an exception of the call ends the loop.  In
    the graph A -> [B, C], B -> [D] the list of child URLs is [B, D, C],
    which is not [B, C, D]. *)
Theorem depth_first_preorder :
  (∀ urljoin original_url self url href u rest st,
      follows urljoin original_url url href u st →
      for_anchors urljoin original_url self url (Some href :: rest) st
      = match self u (append_child u st) with
        | Done st' => for_anchors urljoin original_url self url rest st'
        | o => o
        end) ∧
  (∀ urljoin web (A B C D hrefB hrefC hrefD : string)
     statusA statusB statusC statusD fuel,
      web A = Response statusA [Some hrefB; Some hrefC] →
      web B = Response statusB [Some hrefD] →
      web C = Response statusC [] →
      web D = Response statusD [] →
      href_test hrefB = true → href_test hrefC = true →
      href_test hrefD = true →
      urljoin A (Py.split_hash_0 hrefB) = Some B →
      urljoin A (Py.split_hash_0 hrefC) = Some C →
      urljoin B (Py.split_hash_0 hrefD) = Some D →
      Py.startswith B A = true → Py.startswith C A = true →
      Py.startswith D A = true →
      NoDup [A; B; C; D] → (3 ≤ fuel)%nat →
      ∃ st, traverse urljoin web fuel A = Done st ∧
            child_urls st = [B; D; C] ∧ child_urls st ≠ [B; C; D] ∧
            requested st = [A; B; D; C]).
Proof.
  split.
  - intros. by apply for_anchors_follow.
  - intros urljoin web A B C D hrefB hrefC hrefD statusA statusB statusC
      statusD fuel HwA HwB HwC HwD HtB HtC HtD HjB HjC HjD HsB HsC HsD
      Hnd Hfuel.
    destruct fuel as [|[|[|fuel]]]; [lia|lia|lia|].
    apply NoDup_cons in Hnd as [HA Hnd]. apply NoDup_cons in Hnd as [HB Hnd].
    apply NoDup_cons in Hnd as [HC _].
    assert (A ≠ B ∧ A ≠ C ∧ A ≠ D ∧ B ≠ C ∧ B ≠ D ∧ C ≠ D)
      as (HAB & HAC & HAD & HBC & HBD & HCD) by set_solver.
    unfold traverse. rewrite crawl_page_S, HwA.
    rewrite (for_anchors_follow _ _ _ A hrefB B).
    2:{ split_and!; [done|done|done|]. simpl. set_solver. }
    rewrite crawl_page_S, HwB.
    rewrite (for_anchors_follow _ _ _ B hrefD D).
    2:{ split_and!; [done|done|done|]. simpl. set_solver. }
    rewrite crawl_page_S, HwD. cbn [for_anchors].
    rewrite HtC, HjC, HsC, decide_False by (simpl; set_solver).
    rewrite crawl_page_S, HwC. simpl.
    eexists. split_and!; [done|done| |done]. intros [= HDC _]. by apply HCD.
Qed.

Lemma depth_first_preorder_witness :
  ∃ st, traverse urljoin_simple (serve tree_site) 3 "https://t.org/" = Done st ∧
        child_urls st = ["https://t.org/b"; "https://t.org/d"; "https://t.org/c"] ∧
        child_urls st ≠ ["https://t.org/b"; "https://t.org/c"; "https://t.org/d"] ∧
        requested st
        = ["https://t.org/"; "https://t.org/b"; "https://t.org/d";
           "https://t.org/c"].
Proof.
  apply (proj2 depth_first_preorder urljoin_simple (serve tree_site)
           "https://t.org/" "https://t.org/b" "https://t.org/c"
           "https://t.org/d" "/b" "/c" "/d" 200%Z 200%Z 200%Z 200%Z 3);
    try reflexivity.
  apply (bool_decide_unpack _). vm_compute. exact I.
Defined.

(** C3: the end-to-end scenario.  The page at [https://ex.com/] has the
    four links of the specification and the two pages under it have
    none; [urljoin] resolves the three distinct references as
    [urllib.parse.urljoin] does.  The traversal returns with the list
    [https://ex.com/a], [https://ex.com/b]: the link to other.com fails
    the prefix test, [/a#dup] is cut to [/a] and met again as visited,
    and the start URL is not in the list.  Cutting at the first hash
    makes a reference with a fragment resolve as the one without. *)
Theorem end_to_end_scenario :
  (∀ urljoin web status status_a status_b fuel,
      urljoin "https://ex.com/" "/a" = Some "https://ex.com/a" →
      urljoin "https://ex.com/" "https://ex.com/b" = Some "https://ex.com/b" →
      urljoin "https://ex.com/" "https://other.com/c"
        = Some "https://other.com/c" →
      web "https://ex.com/"
        = Response status [Some "/a"; Some "https://ex.com/b";
                           Some "https://other.com/c"; Some "/a#dup"] →
      web "https://ex.com/a" = Response status_a [] →
      web "https://ex.com/b" = Response status_b [] →
      (2 ≤ fuel)%nat →
      ∃ st, traverse urljoin web fuel "https://ex.com/" = Done st ∧
            child_urls st = ["https://ex.com/a"; "https://ex.com/b"] ∧
            ("https://ex.com/" ∉ child_urls st) ∧
            ("https://other.com/c" ∉ visited_urls st)) ∧
  (∀ (urljoin : string → string → option string) base page fragment,
      urljoin base (Py.split_hash_0 (page ++ String "#" fragment))
      = urljoin base (Py.split_hash_0 page)).
Proof.
  split.
  - intros urljoin web status status_a status_b fuel Hja Hjb Hjc Hw Hwa Hwb
      Hfuel.
    destruct fuel as [|[|fuel]]; [lia|lia|]. unfold traverse.
    rewrite crawl_page_S, Hw.
    rewrite (for_anchors_follow _ _ _ _ "/a" "https://ex.com/a").
    2:{ split_and!; [done|done|done|]. simpl. set_solver. }
    rewrite crawl_page_S, Hwa, for_anchors_nil. cbv beta iota.
    rewrite (for_anchors_follow _ _ _ _ "https://ex.com/b" "https://ex.com/b").
    2:{ split_and!; [done|done|done|]. simpl. set_solver. }
    rewrite crawl_page_S, Hwb, for_anchors_nil. cbv beta iota.
    rewrite (for_anchors_out_of_scope _ _ _ _ "https://other.com/c"
               "https://other.com/c") by done.
    rewrite (for_anchors_seen _ _ _ _ "/a#dup" "https://ex.com/a");
      [|done|done|simpl; set_solver].
    eexists. split_and!; [done|done| |]; simpl.
    + rewrite !elem_of_cons, elem_of_nil. naive_solver.
    + set_solver.
  - intros. by rewrite split_hash_0_fragment.
Qed.

Lemma end_to_end_scenario_witness :
  ∃ st, traverse urljoin_simple (serve ex_com) 2 "https://ex.com/" = Done st ∧
        child_urls st = ["https://ex.com/a"; "https://ex.com/b"] ∧
        ("https://ex.com/" ∉ child_urls st) ∧
        ("https://other.com/c" ∉ visited_urls st).
Proof.
  apply (proj1 end_to_end_scenario urljoin_simple (serve ex_com)
           200%Z 200%Z 200%Z 2); reflexivity.
Defined.

(** ** Failures of the GET request *)

Lemma crawl_page_first_failure (urljoin : string → string → option string)
    (web : string → reply) (original_url : string) (fuel : nat)
    (url : string) (st : state) :
  Forall (λ v, web v ≠ GetRaises) (requested st) →
  first_failure web (crawl_page urljoin web original_url fuel url st).
Proof.
  apply (crawl_page_rule urljoin web original_url
           (λ _ st, Forall (λ v, web v ≠ GetRaises) (requested st))
           (first_failure web)).
  - done.
  - intros url' st' Hst' Hweb. exists (requested st'), url'. simpl.
    split_and!; [done|done|done|].
    apply elem_of_union. left. by apply elem_of_singleton.
  - intros url' st' status anchors Hst' Hweb. simpl.
    apply Forall_app. split; [done|]. apply Forall_singleton. by rewrite Hweb.
  - by intros [] st'.
  - by intros url' href u st' Hst' _.
Qed.

Lemma for_anchors_ext (urljoin : string → string → option string)
    (original_url : string) (self self' : string → state → outcome)
    (url : string) (anchors : list (option string)) (st : state) :
  (∀ u st', self u st' = self' u st') →
  for_anchors urljoin original_url self url anchors st
  = for_anchors urljoin original_url self' url anchors st.
Proof.
  intros Hext. revert st.
  induction anchors as [|[href|] rest IH]; intros st; simpl; [done| |done].
  destruct (href_test href); [|done].
  destruct (urljoin url (Py.split_hash_0 href)) as [u|]; [|done].
  destruct (Py.startswith u original_url); [|done].
  case_decide; [done|]. rewrite Hext.
  by destruct (self' u (append_child u st)).
Qed.

Lemma crawl_page_same_links (urljoin : string → string → option string)
    (web web' : string → reply) (original_url : string) (fuel : nat)
    (url : string) (st : state) :
  (∀ u, same_links (web u) (web' u)) →
  crawl_page urljoin web original_url fuel url st
  = crawl_page urljoin web' original_url fuel url st.
Proof.
  intros Hsame. revert url st.
  induction fuel as [|fuel IH]; intros url st; [done|].
  rewrite !crawl_page_S. specialize (Hsame url).
  destruct (web url) as [|status anchors], (web' url) as [|status' anchors'];
    simpl in Hsame; try done.
  subst anchors'. by apply for_anchors_ext.
Qed.

(** C1, as the code has it: [crawl_page] has no handler around
    [requests.get].  When the GET of a URL raises, the URL is already in
    the set of visited URLs, nothing is read from that page, and the
    exception leaves the call; it then leaves every enclosing call, so
    that request is the last one of the run and the traversal ends with
    the exception.  A reply with a failure status is no failure for
    [crawl_page]: two sites that differ in status codes only are
    traversed alike. *)
Theorem fetch_failure_ends_the_run :
  (∀ urljoin web original_url fuel url st,
      web url = GetRaises →
      crawl_page urljoin web original_url (S fuel) url st
      = Raised RequestException (log_get url (add_visited url st))) ∧
  (∀ urljoin web fuel url u,
      u ∈ requested (final (traverse urljoin web fuel url)) →
      web u = GetRaises →
      ∃ st, traverse urljoin web fuel url = Raised RequestException st ∧
            last (requested st) = Some u ∧ u ∈ visited_urls st) ∧
  (∀ urljoin web web' original_url fuel url st,
      (∀ u, same_links (web u) (web' u)) →
      crawl_page urljoin web original_url fuel url st
      = crawl_page urljoin web' original_url fuel url st).
Proof.
  split_and!.
  - intros urljoin web original_url fuel url st Hweb.
    by rewrite crawl_page_S, Hweb.
  - intros urljoin web fuel url u Hin Hweb.
    assert (first_failure web (traverse urljoin web fuel url)) as Hff
      by by apply crawl_page_first_failure.
    destruct (traverse urljoin web fuel url) as [st|e st|st]; simpl in *.
    + rewrite Forall_forall in Hff. by destruct (Hff u Hin).
    + destruct e; try (rewrite Forall_forall in Hff; by destruct (Hff u Hin)).
      destruct Hff as (l & u' & Hreq & Hl & Hu' & Hvis).
      rewrite Hreq in Hin. apply elem_of_app in Hin as [Hin|Hin].
      * rewrite Forall_forall in Hl. by destruct (Hl u Hin).
      * apply list_elem_of_singleton in Hin as ->.
        exists st. by rewrite Hreq, last_snoc.
    + rewrite Forall_forall in Hff. by destruct (Hff u Hin).
  - intros. by apply crawl_page_same_links.
Qed.

Lemma fetch_failure_ends_the_run_witness :
  ∃ st, traverse urljoin_simple (serve flaky_site) 3 "https://ex.com/"
        = Raised RequestException st ∧
        last (requested st) = Some "https://ex.com/a" ∧
        "https://ex.com/a" ∈ visited_urls st.
Proof.
  destruct fetch_failure_ends_the_run as (_ & Hrun & _).
  apply (Hrun urljoin_simple (serve flaky_site) 3 "https://ex.com/"
           "https://ex.com/a"); [|reflexivity].
  apply (bool_decide_unpack _). vm_compute. exact I.
Defined.

(** C1 as the specification has it fails.  On a site whose start page
    links to [/a] and [/b], where the GET of [/a] raises and [/b] could
    be fetched, the traversal does not go on with [/b]: it ends with the
    exception, [/b] is neither requested nor visited nor listed. *)
Lemma fetch_failure_aborts_traversal :
  serve flaky_site "https://ex.com/" = Response 200 [Some "/a"; Some "/b"] ∧
  serve flaky_site "https://ex.com/a" = GetRaises ∧
  serve flaky_site "https://ex.com/b" = Response 200 [] ∧
  ∃ st, traverse urljoin_simple (serve flaky_site) 3 "https://ex.com/"
        = Raised RequestException st ∧
        child_urls st = ["https://ex.com/a"] ∧
        requested st = ["https://ex.com/"; "https://ex.com/a"] ∧
        ("https://ex.com/b" ∉ visited_urls st).
Proof.
  split_and!; [done|done|done|].
  eexists. split_and!; [by vm_compute|done|done|].
  apply (bool_decide_unpack _). by vm_compute.
Qed.

(** ** The href filter *)

(** C2, at the input where the code departs from it.  An href that is a
    string is accepted exactly when it starts with [https://] or with a
    slash, so the empty string and [javascript:void(0)] are passed over
    and the loop goes on.  An anchor without an href is not passed over:
    the test calls [startswith] on [None], the call raises, and the
    traversal of a page whose first anchor has no href ends there, the
    link after it never looked at. *)
Theorem missing_href_raises :
  (∀ href, href_test href
           = Py.startswith href "https://" || Py.startswith href "/") ∧
  (∀ urljoin original_url self url rest st,
      for_anchors urljoin original_url self url (Some EmptyString :: rest) st
      = for_anchors urljoin original_url self url rest st) ∧
  (∀ urljoin original_url self url rest st,
      for_anchors urljoin original_url self url
        (Some "javascript:void(0)" :: rest) st
      = for_anchors urljoin original_url self url rest st) ∧
  (∀ urljoin original_url self url rest st,
      for_anchors urljoin original_url self url (None :: rest) st
      = Raised AttributeError st) ∧
  serve named_anchor_site "https://ex.com/" = Response 200 [None; Some "/a"] ∧
  traverse urljoin_simple (serve named_anchor_site) 2 "https://ex.com/"
  = Raised AttributeError
      (log_get "https://ex.com/" (add_visited "https://ex.com/" initial)) ∧
  child_urls
    (final (traverse urljoin_simple (serve named_anchor_site) 2
              "https://ex.com/")) = [].
Proof.
  split_and!; try done. apply href_test_spec.
Qed.

(** ** Writing the result *)

Lemma writerows_insert (name : string) (rows written : list (list string))
    (files : gmap string (list (list string))) :
  writerows name rows (<[name := written]> files)
  = <[name := (written ++ rows)%list]> files.
Proof.
  unfold writerows. revert written.
  induction rows as [|row rows IH]; intros written; simpl.
  - by rewrite app_nil_r.
  - unfold writerow at 2. rewrite alter_insert_eq, IH.
    by rewrite <- app_assoc.
Qed.

Lemma main_Done (urljoin : string → string → option string)
    (web : string → reply) (fuel : nat) (url : string)
    (files : gmap string (list (list string))) (st : state) :
  traverse urljoin web fuel url = Done st →
  main urljoin web fuel url files
  = (Done st,
     <["child_urls.csv" :=
         ["Child URLs"] :: map (λ child_url, [child_url]) (child_urls st)]>
       files).
Proof.
  intros Hrun. unfold main. rewrite Hrun.
  unfold open_w, writerow at 1. by rewrite alter_insert_eq, writerows_insert.
Qed.

(** C8: [main] writes the result once, after the traversal has
    returned.  The file [child_urls.csv] then holds the header row
    [Child URLs] and after it one row of one field per child URL, in the
    order of the list, whatever the file held before; no other file is
    touched.  When the traversal does not return, nothing is written. *)
Theorem result_written_after_traversal
    (urljoin : string → string → option string) (web : string → reply)
    (fuel : nat) (url : string)
    (files : gmap string (list (list string))) :
  match traverse urljoin web fuel url with
  | Done st =>
      main urljoin web fuel url files
      = (Done st,
         <["child_urls.csv" :=
             ["Child URLs"] :: map (λ child_url, [child_url]) (child_urls st)]>
           files) ∧
      snd (main urljoin web fuel url files) !! "child_urls.csv"
      = Some (["Child URLs"] :: map (λ child_url, [child_url]) (child_urls st)) ∧
      Forall (λ row, length row = 1%nat)
        (["Child URLs"] :: map (λ child_url, [child_url]) (child_urls st)) ∧
      set_Forall (λ name, name = "child_urls.csv" ∨
                          snd (main urljoin web fuel url files) !! name
                          = files !! name)
        (dom files)
  | o => main urljoin web fuel url files = (o, files)
  end.
Proof.
  destruct (traverse urljoin web fuel url) as [st|e st|st] eqn:Hrun;
    [|unfold main; by rewrite Hrun..].
  rewrite (main_Done urljoin web fuel url files st Hrun).
  cbn [snd]. split_and!.
  - done.
  - by rewrite lookup_insert_eq.
  - constructor; [done|]. apply Forall_map. by apply Forall_true.
  - intros name _. destruct (decide (name = "child_urls.csv")) as [->|Hne];
      [by left|right]. by rewrite lookup_insert_ne.
Qed.

(** ** The response parser *)
Section ParserFacts.

#[local] Arguments String.append !_ _ / : simpl nomatch.

Import Analyzer.

Lemma through_last_brace_None (s : string) :
  through_last_brace s = None ↔ Py.has_char "}" s = false.
Proof.
  induction s as [|c s IH]; simpl; [done|].
  destruct (through_last_brace s) as [m|].
  - split; [done|]. destruct (Ascii.eqb c "}"); [done|].
    intros H. apply IH in H. done.
  - destruct (Ascii.eqb c "}"); [done|]. split; [|done].
    intros _. by apply IH.
Qed.

Lemma through_last_brace_Some (s m : string) :
  through_last_brace s = Some m →
  ∃ mid post, s = (mid ++ String "}" post) ∧ m = (mid ++ "}") ∧
              Py.has_char "}" post = false.
Proof.
  revert m. induction s as [|c s IH]; intros m; simpl; [done|].
  destruct (through_last_brace s) as [m'|] eqn:Hs.
  - intros [= <-]. destruct (IH m' eq_refl) as (mid & post & -> & -> & Hpost).
    by exists (String c mid), post.
  - destruct (Ascii.eqb_spec c "}") as [->|]; [|done]. intros [= <-].
    exists EmptyString, s. split_and!; [done|done|]. by apply through_last_brace_None.
Qed.

Lemma re_search_no_brace (s : string) :
  Py.has_char "}" s = false → re_search s = None.
Proof.
  induction s as [|c s IH]; simpl; [done|].
  destruct (Ascii.eqb c "}") eqn:Hc; [done|]. intros Hs.
  rewrite (proj2 (through_last_brace_None s) Hs), (IH Hs).
  by destruct (Ascii.eqb c "{").
Qed.

(** The match runs from the first opening brace to the last closing
    brace of the text. *)
Lemma re_search_Some (content m : string) :
  re_search content = Some m →
  ∃ pre mid post,
    content = (pre ++ String "{" (mid ++ String "}" post)) ∧
    m = String "{" (mid ++ "}") ∧
    Py.has_char "{" pre = false ∧ Py.has_char "}" post = false.
Proof.
  revert m. induction content as [|c s IH]; intros m; simpl; [done|].
  destruct (Ascii.eqb_spec c "{") as [->|Hc].
  - destruct (through_last_brace s) as [m'|] eqn:Hs.
    + intros [= <-].
      destruct (through_last_brace_Some s m' Hs) as (mid & post & -> & -> & Hp).
      by exists EmptyString, mid, post.
    + apply through_last_brace_None in Hs. by rewrite re_search_no_brace.
  - intros Hm. destruct (IH m Hm) as (pre & mid & post & -> & -> & Hpre & Hp).
    exists (String c pre), mid, post. split_and!; [done|done| |done].
    simpl. by apply Ascii.eqb_neq in Hc as ->.
Qed.

End ParserFacts.

(** C10, at the input where the code departs from it.  The function
    returns on every text, and what it returns when the whole text is
    not JSON is what the claim says: the value decoded from the span
    between the first opening and the last closing brace, else the
    empty dictionary.  When the whole text is JSON, the decoded value is
    returned as it is, dictionary or not: on the text [42] the result is
    the number 42. *)
Theorem parse_openai_response_result :
  (∀ json_loads content v,
      json_loads content = Some v →
      Analyzer.parse_openai_response json_loads content = v) ∧
  (∀ json_loads content,
      json_loads content = None →
      Analyzer.parse_openai_response json_loads content
      = match Analyzer.re_search content with
        | Some json_match => default (Analyzer.JObject []) (json_loads json_match)
        | None => Analyzer.JObject []
        end) ∧
  (∀ content json_match,
      Analyzer.re_search content = Some json_match →
      ∃ pre mid post,
        content = (pre ++ String "{" (mid ++ String "}" post)) ∧
        json_match = String "{" (mid ++ "}") ∧
        Py.has_char "{" pre = false ∧ Py.has_char "}" post = false) ∧
  Analyzer.parse_openai_response loads_example "42" = Analyzer.JInt 42 ∧
  Analyzer.is_dict (Analyzer.parse_openai_response loads_example "42") = false.
Proof.
  split_and!.
  - intros json_loads content v H. unfold Analyzer.parse_openai_response.
    by rewrite H.
  - intros json_loads content H. unfold Analyzer.parse_openai_response.
    rewrite H. destruct (Analyzer.re_search content) as [m|]; [|done].
    by destruct (json_loads m).
  - apply re_search_Some.
  - done.
  - done.
Qed.

Lemma parse_openai_response_result_witness :
  Analyzer.parse_openai_response loads_example "42" = Analyzer.JInt 42.
Proof.
  apply (proj1 parse_openai_response_result loads_example "42").
  reflexivity.
Defined.

(** ** The order of the requests *)

Lemma crawl_page_fetch_order (urljoin : string → string → option string)
    (web : string → reply) (original_url start : string) (fuel : nat)
    (url : string) (st : state) :
  (requested st ++ [url])%list = start :: child_urls st →
  url ∉ visited_urls st →
  fetch_order start (crawl_page urljoin web original_url fuel url st).
Proof.
  intros Hreq Hnew.
  apply (crawl_page_rule urljoin web original_url
           (λ url st, (requested st ++ [url])%list = start :: child_urls st ∧
                      url ∉ visited_urls st)
           (fetch_order start)); [| | | | |done].
  - intros url' st' [??]. by exists url'.
  - by intros url' st' [??] _.
  - by intros url' st' ?? [??] _.
  - done.
  - intros url' href u st' Hst' (_ & _ & _ & Hu). simpl in *.
    split; [|done]. by rewrite Hst'.
Qed.

Lemma crawl_page_visited_requested
    (urljoin : string → string → option string) (web : string → reply)
    (original_url : string) (fuel : nat) (url : string) (st : state) :
  visited_urls st = list_to_set (requested st) →
  visited_urls (final (crawl_page urljoin web original_url fuel url st))
  = list_to_set
      (requested (final (crawl_page urljoin web original_url fuel url st))).
Proof.
  assert (∀ url st, visited_urls st = list_to_set (requested st) →
            visited_urls (log_get url (add_visited url st))
            = list_to_set (requested (log_get url (add_visited url st))))
    as Henter.
  { intros url' st' Hst'. simpl. rewrite list_to_set_app_L, Hst'. simpl.
    set_solver. }
  apply (crawl_page_rule urljoin web original_url
           (λ _ st, visited_urls st = list_to_set (requested st))
           (λ o, visited_urls (final o) = list_to_set (requested (final o))));
    try done.
  - intros ??? _. by apply Henter.
  - intros ????? _. by apply Henter.
Qed.

Lemma traverse_start_not_child (urljoin : string → string → option string)
    (web : string → reply) (fuel : nat) (url : string) :
  url ∉ child_urls (final (traverse urljoin web fuel url)).
Proof.
  assert (fetch_order url (traverse urljoin web fuel url)) as Hord.
  { apply crawl_page_fetch_order; [done|apply not_elem_of_empty]. }
  assert (fetched_once (final (traverse urljoin web fuel url))) as [Hnd Hin].
  { apply crawl_page_fetched_once; [apply not_elem_of_empty|].
    split; simpl; [apply NoDup_nil_2|done]. }
  destruct (traverse urljoin web fuel url) as [st|e st|st]; simpl in *.
  - rewrite Hord in Hnd. by apply NoDup_cons in Hnd as [? _].
  - rewrite Hord in Hnd. by apply NoDup_cons in Hnd as [? _].
  - destruct Hord as (u & Hreq & Hu).
    assert (NoDup (requested st ++ [u])) as Hnd'.
    { apply NoDup_app. split_and!; [done| |apply NoDup_singleton].
      intros x Hx ->%list_elem_of_singleton.
      rewrite Forall_forall in Hin. by apply Hu, Hin. }
    rewrite Hreq in Hnd'. by apply NoDup_cons in Hnd' as [? _].
Qed.

(** X2: the pages are requested in the order in which they are listed.
    Whether the traversal of [main] returned or raised, the GET requests
    went to the start URL and then to the child URLs in the order of
    the list, one request per entry; the start URL is not in the list;
    and the set of visited URLs is the set of requested URLs. *)
Theorem requests_follow_the_list
    (urljoin : string → string → option string) (web : string → reply)
    (fuel : nat) (url : string) :
  let o := traverse urljoin web fuel url in
  fetch_order url o ∧
  (url ∉ child_urls (final o)) ∧
  visited_urls (final o) = list_to_set (requested (final o)).
Proof.
  simpl. split_and!.
  - apply crawl_page_fetch_order; [done|apply not_elem_of_empty].
  - apply traverse_start_not_child.
  - by apply crawl_page_visited_requested.
Qed.

(** ** What the traversal reaches *)

(** Every visited URL can be reached from the start URL along links the
    loop follows. *)
Lemma crawl_page_visited_reachable
    (urljoin : string → string → option string) (web : string → reply)
    (original_url start : string) (fuel : nat) (url : string) (st : state) :
  rtc (follows_link urljoin web original_url) start url →
  set_Forall (rtc (follows_link urljoin web original_url) start)
    (visited_urls st) →
  set_Forall (rtc (follows_link urljoin web original_url) start)
    (visited_urls (final (crawl_page urljoin web original_url fuel url st))).
Proof.
  revert url st. induction fuel as [|fuel IH]; intros url st Hurl Hst; [done|].
  rewrite crawl_page_S.
  assert (set_Forall (rtc (follows_link urljoin web original_url) start)
            (visited_urls (log_get url (add_visited url st)))) as Hst1.
  { intros u [->%elem_of_singleton|Hu]%elem_of_union; [done|by apply Hst]. }
  destruct (web url) as [|status anchors] eqn:Hweb; [done|].
  apply (for_anchors_rule urljoin original_url
           (λ o, set_Forall (rtc (follows_link urljoin web original_url) start)
                   (visited_urls (final o)))); [done| |done].
  intros href u st' Hin Hst' (Htest & Hjoin & Hscope & _).
  apply IH; [|done].
  eapply rtc_r; [done|]. by exists status, anchors, href.
Qed.

(** When a call returns, every URL it added to the set has all its
    links in the set. *)
Lemma crawl_page_closes (urljoin : string → string → option string)
    (web : string → reply) (original_url : string) (fuel : nat) :
  ∀ url st st',
    crawl_page urljoin web original_url fuel url st = Done st' →
    {[url]} ∪ visited_urls st ⊆ visited_urls st' ∧
    ∀ u v, u ∈ visited_urls st' → u ∉ visited_urls st →
           follows_link urljoin web original_url u v → v ∈ visited_urls st'.
Proof.
  induction fuel as [|fuel IH]; intros url st st'; [done|].
  rewrite crawl_page_S.
  destruct (web url) as [|status anchors] eqn:Hweb; [done|].
  set (st1 := log_get url (add_visited url st)).
  assert (∀ l st2 st',
            for_anchors urljoin original_url
              (crawl_page urljoin web original_url fuel) url l st2 = Done st' →
            visited_urls st2 ⊆ visited_urls st' ∧
            (∀ u v, u ∈ visited_urls st' → u ∉ visited_urls st2 →
                    follows_link urljoin web original_url u v →
                    v ∈ visited_urls st') ∧
            (∀ href v, Some href ∈ l → href_test href = true →
                       urljoin url (Py.split_hash_0 href) = Some v →
                       Py.startswith v original_url = true →
                       v ∈ visited_urls st')) as Hloop.
  { clear st st1 st'. induction l as [|[href|] l IHl]; intros st2 st' Hrun;
      simpl in Hrun; [| |done].
    - injection Hrun as <-. split_and!; [done|done|].
      by intros ?? ?%elem_of_nil.
    - destruct (href_test href) eqn:Htest.
      2:{ destruct (IHl _ _ Hrun) as (H1 & H2 & H3). split_and!; [done|done|].
          intros href' v [[= <-]|Hin]%elem_of_cons Ht; [congruence|eauto]. }
      destruct (urljoin url (Py.split_hash_0 href)) as [w|] eqn:Hjoin; [|done].
      destruct (Py.startswith w original_url) eqn:Hscope.
      2:{ destruct (IHl _ _ Hrun) as (H1 & H2 & H3). split_and!; [done|done|].
          intros href' v [[= <-]|Hin]%elem_of_cons Ht Hj Hs; [congruence|eauto]. }
      case_decide as Hseen.
      { destruct (IHl _ _ Hrun) as (H1 & H2 & H3). split_and!; [done|done|].
        intros href' v [[= <-]|Hin]%elem_of_cons Ht Hj Hs; [|eauto].
        assert (v = w) as -> by congruence. by apply H1. }
      destruct (crawl_page urljoin web original_url fuel w (append_child w st2))
        as [st3| |] eqn:Hcall; [|done|done].
      destruct (IH _ _ _ Hcall) as [Hsub Hclosed]. simpl in Hsub.
      destruct (IHl _ _ Hrun) as (H1 & H2 & H3). split_and!.
      + set_solver.
      + intros u v Hu Hnew Hlink.
        destruct (decide (u ∈ visited_urls st3)) as [Hu3|Hu3]; [|eauto].
        apply H1. by eapply Hclosed.
      + intros href' v [[= <-]|Hin]%elem_of_cons Ht Hj Hs; [|eauto].
        assert (v = w) as -> by congruence. apply H1, Hsub. set_solver. }
  intros Hrun. destruct (Hloop _ _ _ Hrun) as (H1 & H2 & H3).
  split; [apply H1|].
  intros u v Hu Hnew Hlink.
  destruct (decide (u = url)) as [->|Hne].
  - destruct Hlink as (status' & anchors' & href & Hweb' & Hin & Ht & Hj & Hs).
    rewrite Hweb in Hweb'. injection Hweb' as _ <-. eauto.
  - apply (H2 u v); [done| |done]. simpl. set_solver.
Qed.

Lemma traverse_Done_reachable
    (urljoin : string → string → option string) (web : string → reply)
    (fuel : nat) (url : string) (st : state) :
  traverse urljoin web fuel url = Done st →
  (∀ v, v ∈ visited_urls st ↔ rtc (follows_link urljoin web url) url v) ∧
  (∀ v, v ∈ child_urls st ↔
        rtc (follows_link urljoin web url) url v ∧ v ≠ url).
Proof.
  intros Hrun.
  assert (∀ v, v ∈ visited_urls st ↔ rtc (follows_link urljoin web url) url v)
    as Hvis.
  { intros v. split.
    - pose proof (crawl_page_visited_reachable urljoin web url url fuel url
                    initial) as Hr.
      fold (traverse urljoin web fuel url) in Hr. rewrite Hrun in Hr.
      apply Hr; [done|]. by intros ? ?%not_elem_of_empty.
    - destruct (crawl_page_closes urljoin web url fuel _ _ _ Hrun)
        as [Hsub Hclosed].
      revert v. apply rtc_ind_r.
      + set_solver.
      + intros u v _ Hlink Hu.
        apply (Hclosed u v); [done| |done]. apply not_elem_of_empty. }
  split; [done|]. intros v. rewrite <- Hvis.
  assert (children_distinct (traverse urljoin web fuel url)) as [_ Hch].
  { apply crawl_page_children_distinct; simpl; [apply NoDup_nil_2|done]. }
  pose proof (traverse_scoped urljoin web fuel url) as (Hv & _ & _).
  pose proof (traverse_start_not_child urljoin web fuel url) as Hstart.
  rewrite Hrun in Hch, Hv, Hstart. simpl in *. split.
  - intros Hin. split; [rewrite Forall_forall in Hch; by apply Hch|].
    by intros ->.
  - intros [Hin Hne]. by destruct (Hv v Hin).
Qed.

(** X1: when the traversal of [main] returns, the set of visited URLs is
    exactly the set of URLs that can be reached from the start URL along
    links the loop follows, and the list of child URLs holds exactly
    those other than the start URL. *)
Theorem visited_is_reachable
    (urljoin : string → string → option string) (web : string → reply)
    (fuel : nat) (url : string) (st : state) :
  traverse urljoin web fuel url = Done st →
  (∀ v, v ∈ visited_urls st ↔ rtc (follows_link urljoin web url) url v) ∧
  (∀ v, v ∈ child_urls st ↔
        rtc (follows_link urljoin web url) url v ∧ v ≠ url).
Proof. apply traverse_Done_reachable. Qed.

Lemma visited_is_reachable_witness :
  rtc (follows_link urljoin_simple (serve ex_com) "https://ex.com/")
    "https://ex.com/" "https://ex.com/b".
Proof.
  apply (visited_is_reachable urljoin_simple (serve ex_com) 2 "https://ex.com/"
           (final (traverse urljoin_simple (serve ex_com) 2 "https://ex.com/")));
    [reflexivity|].
  apply (bool_decide_unpack _). vm_compute. exact I.
Defined.

(** ** What a call leaves untouched *)

(** X3: a call of [crawl_page] only ever adds.  Whatever the state it
    starts from and however it ends, the list of child URLs it leaves
    begins with the list it found, the trace of requests likewise, and
    no URL leaves the set of visited URLs. *)
Theorem crawl_page_only_appends
    (urljoin : string → string → option string) (web : string → reply)
    (original_url : string) (fuel : nat) (url : string) (st : state) :
  let st' := final (crawl_page urljoin web original_url fuel url st) in
  child_urls st `prefix_of` child_urls st' ∧
  requested st `prefix_of` requested st' ∧
  visited_urls st ⊆ visited_urls st'.
Proof.
  simpl. split; [|split; [|apply crawl_page_visited_mono]].
  - apply (crawl_page_rule urljoin web original_url
             (λ _ st', child_urls st `prefix_of` child_urls st')
             (λ o, child_urls st `prefix_of` child_urls (final o)));
      try done.
    intros url' href u st' Hst' _. simpl in *.
    by apply prefix_app_r.
  - apply (crawl_page_rule urljoin web original_url
             (λ _ st', requested st `prefix_of` requested st')
             (λ o, requested st `prefix_of` requested (final o)));
      try done.
    + intros url' st' Hst' _. simpl. by apply prefix_app_r.
    + intros url' st' ?? Hst' _. simpl. by apply prefix_app_r.
Qed.

(** ** Independence of the fuel *)




(** ** What the loop asks of [urljoin] *)

Lemma has_char_split_hash_0 (s : string) :
  Py.has_char "#" (Py.split_hash_0 s) = false.
Proof.
  induction s as [|c s IH]; simpl; [done|].
  destruct (Ascii.eqb c "#") eqn:Hc; [done|]. simpl. by rewrite Hc.
Qed.

Lemma for_anchors_agree (urljoin urljoin' : string → string → option string)
    (original_url : string) (self self' : string → state → outcome)
    (url : string) (anchors : list (option string)) (st : state) :
  agree_where_called original_url urljoin urljoin' →
  Py.startswith url original_url = true →
  (∀ u st', Py.startswith u original_url = true → self u st' = self' u st') →
  for_anchors urljoin original_url self url anchors st
  = for_anchors urljoin' original_url self' url anchors st.
Proof.
  intros Hagree Hurl Hself. revert st.
  induction anchors as [|[href|] rest IH]; intros st; simpl; [done| |done].
  destruct (href_test href) eqn:Htest; [|done].
  rewrite <- (Hagree url (Py.split_hash_0 href)); [|done| |].
  - destruct (urljoin url (Py.split_hash_0 href)) as [u|]; [|done].
    destruct (Py.startswith u original_url) eqn:Hscope; [|done].
    case_decide; [done|]. rewrite Hself by done.
    by destruct (self' u (append_child u st)).
  - by apply href_test_split_hash_0.
  - apply has_char_split_hash_0.
Qed.

(** X5: the traversal depends on [urljoin] only where the loop calls it:
    with a base that starts with the start URL and a reference that
    starts with [https://] or a slash and holds no hash.  Two resolvers
    that agree on these arguments give the same traversal. *)
Theorem traversal_depends_on_urljoin_where_called
    (urljoin urljoin' : string → string → option string)
    (web : string → reply) (fuel : nat) (url : string) :
  agree_where_called url urljoin urljoin' →
  traverse urljoin web fuel url = traverse urljoin' web fuel url.
Proof.
  intros Hagree. unfold traverse.
  assert (∀ fuel u st, Py.startswith u url = true →
            crawl_page urljoin web url fuel u st
            = crawl_page urljoin' web url fuel u st) as Hgen.
  { clear fuel. induction fuel as [|fuel IH]; intros u st Hu; [done|].
    rewrite !crawl_page_S. destruct (web u) as [|status anchors]; [done|].
    by apply for_anchors_agree. }
  apply Hgen, startswith_refl.
Qed.

Lemma traversal_depends_on_urljoin_where_called_witness :
  traverse urljoin_simple (serve ex_com) 2 "https://ex.com/"
  = traverse urljoin_strict (serve ex_com) 2 "https://ex.com/".
Proof.
  apply traversal_depends_on_urljoin_where_called.
  intros base href _ Htest Hhash. unfold urljoin_strict.
  rewrite Htest, Hhash. reflexivity.
Defined.

(** ** Cutting the fragment *)
Section FragmentFacts.

#[local] Arguments String.append !_ _ / : simpl nomatch.

(** X6: [href.split('#')[0]] is the part of the href before its first
    hash.  The result holds no hash, the href is the result followed by
    nothing or by a text that starts with a hash, and the href is left
    as it is exactly when it holds no hash. *)
Theorem split_hash_0_is_text_before_first_hash (href : string) :
  Py.has_char "#" (Py.split_hash_0 href) = false ∧
  (∃ rest, href = (Py.split_hash_0 href ++ rest) ∧
           (rest = EmptyString ∨ Py.startswith rest "#" = true)) ∧
  (Py.split_hash_0 href = href ↔ Py.has_char "#" href = false).
Proof.
  split_and!.
  - apply has_char_split_hash_0.
  - induction href as [|c s (rest & Hs & Hrest)]; simpl.
    + exists EmptyString. by split; [|left].
    + destruct (Ascii.eqb_spec c "#") as [->|Hc].
      * exists (String "#" s). by split; [|right].
      * exists rest. split; [|done]. simpl. by rewrite <- Hs.
  - induction href as [|c s IH]; simpl; [done|].
    destruct (Ascii.eqb c "#"); [done|]. rewrite <- IH.
    split; [by intros [= ->]|by intros ->].
Qed.

End FragmentFacts.

(** ** The span between the braces *)
Section SpanFacts.

#[local] Arguments String.append !_ _ / : simpl nomatch.

Import Analyzer.

Lemma through_last_brace_app (mid post : string) :
  Py.has_char "}" post = false →
  through_last_brace (mid ++ String "}" post) = Some (mid ++ "}").
Proof.
  intros Hpost. induction mid as [|c mid IH]; simpl.
  - by rewrite (proj2 (through_last_brace_None post) Hpost).
  - by rewrite IH.
Qed.

Lemma re_search_app (pre mid post : string) :
  Py.has_char "{" pre = false → Py.has_char "}" post = false →
  re_search (pre ++ String "{" (mid ++ String "}" post))
  = Some (String "{" (mid ++ "}")).
Proof.
  intros Hpre Hpost. induction pre as [|c pre IH]; simpl in *.
  - by rewrite through_last_brace_app.
  - destruct (Ascii.eqb c "{"); [done|]. by apply IH.
Qed.

Lemma re_search_None (content : string) :
  re_search content = None ↔
  ∀ pre rest, content = (pre ++ String "{" rest) → Py.has_char "}" rest = false.
Proof.
  split.
  - induction content as [|c s IH]; intros Hnone pre rest Heq.
    + by destruct pre.
    + simpl in Hnone. destruct pre as [|d pre]; simpl in Heq.
      * injection Heq as -> ->. simpl in Hnone.
        destruct (through_last_brace rest) eqn:Hr; [done|].
        by apply through_last_brace_None.
      * injection Heq as -> ->. apply (IH) with (pre := pre); [|done].
        destruct (Ascii.eqb d "{"); [|done].
        by destruct (through_last_brace (pre ++ String "{" rest)).
  - intros Hall. destruct (re_search content) as [m|] eqn:Hm; [|done].
    destruct (re_search_Some content m Hm) as (pre & mid & post & -> & _ & _ & _).
    specialize (Hall pre (mid ++ String "}" post) eq_refl).
    exfalso. clear Hm. induction mid as [|c mid IH]; simpl in Hall.
    + done.
    + destruct (Ascii.eqb c "}"); [done|]. by apply IH.
Qed.

End SpanFacts.

(** X7: what the pattern of [parse_openai_response] finds.  In a text
    made of a part without opening brace, an opening brace, anything, a
    closing brace and a part without closing brace, the match is the
    span from that opening brace to that closing brace; and there is no
    match exactly when no opening brace of the text has a closing brace
    after it. *)
Theorem re_search_finds_outermost_span :
  (∀ pre mid post,
      Py.has_char "{" pre = false → Py.has_char "}" post = false →
      Analyzer.re_search (pre ++ String "{" (mid ++ String "}" post))
      = Some (String "{" (mid ++ "}"))) ∧
  (∀ content,
      Analyzer.re_search content = None ↔
      ∀ pre rest, content = (pre ++ String "{" rest) →
                  Py.has_char "}" rest = false).
Proof.
  split; [apply re_search_app|apply re_search_None].
Qed.

Lemma re_search_finds_outermost_span_witness :
  Analyzer.re_search "Here it is: {a} and {b}. Bye" = Some "{a} and {b}".
Proof.
  apply (proj1 re_search_finds_outermost_span "Here it is: " "a} and {b"
           ". Bye"); reflexivity.
Defined.

(** X8: a reply that wraps its JSON object in other text is still
    decoded.  When the whole text is not JSON and consists of a part
    without opening brace, a span in braces and a part without closing
    brace, the result is what [json.loads] gives for the span, or the
    empty dictionary when the span is not JSON either. *)
Theorem parse_openai_response_unwraps
    (json_loads : string → option Analyzer.json) (pre mid post : string) :
  Py.has_char "{" pre = false → Py.has_char "}" post = false →
  json_loads (pre ++ String "{" (mid ++ String "}" post)) = None →
  Analyzer.parse_openai_response json_loads
    (pre ++ String "{" (mid ++ String "}" post))
  = default (Analyzer.JObject []) (json_loads (String "{" (mid ++ "}"))).
Proof.
  intros Hpre Hpost Hwhole. unfold Analyzer.parse_openai_response.
  rewrite Hwhole, re_search_app by done.
  by destruct (json_loads _).
Qed.


(** ** The results of the analysis *)
Section ResultFacts.

Import Analyzer.

Variable float_is_zero : string → bool.

Lemma dict_get_dict_set (d : list (string * json)) (k k' : string) (v : json) :
  Topics.dict_get (Topics.dict_set d k v) k'
  = if String.eqb k k' then Some v else Topics.dict_get d k'.
Proof.
  induction d as [|[k0 v0] d IH]; simpl.
  - done.
  - destruct (String.eqb_spec k0 k) as [->|Hne]; simpl.
    + by destruct (String.eqb k k').
    + rewrite IH. destruct (String.eqb_spec k0 k') as [->|]; [|done].
      assert (String.eqb k k' = false) as -> by (apply String.eqb_neq; congruence).
      done.
Qed.

Lemma create_result_dict_dict (subreddit_name : string) (p : Topics.post)
    (d : list (string * json)) (summary status : json) :
  Topics.dict_get d "summary" = Some summary →
  Topics.dict_get d "status" = Some status →
  Topics.create_result_dict float_is_zero subreddit_name p (JObject d)
  = inr (base_result subreddit_name p summary status
         ++ if Topics.status_asks status then kept_questions float_is_zero d
            else [])%list.
Proof.
  intros Hsum Hst. unfold Topics.create_result_dict. simpl.
  rewrite Hsum. simpl. rewrite Hst. simpl.
  fold (base_result subreddit_name p summary status).
  destruct (Topics.status_asks status); [|reflexivity].
  unfold kept_questions, Topics.add_question. simpl.
  change (Topics.question_key 1) with "question1".
  change (Topics.question_key 2) with "question2".
  change (Topics.question_key 3) with "question3".
  unfold base_result.
  destruct (Topics.dict_get d "question1") as [v1|] eqn:H1; simpl;
    [destruct (Topics.truthy float_is_zero v1); simpl|];
    (destruct (Topics.dict_get d "question2") as [v2|] eqn:H2; simpl;
       [destruct (Topics.truthy float_is_zero v2); simpl|]);
    (destruct (Topics.dict_get d "question3") as [v3|] eqn:H3; simpl;
       [destruct (Topics.truthy float_is_zero v3); simpl|]);
    reflexivity.
Qed.

End ResultFacts.

(** X10: what [create_result_dict] builds from a dictionary that has a
    summary and a status.  The result holds, in this order, the
    subreddit, the URL of the post on reddit.com, its title, the summary
    and the status; when the status is one of the two that ask for
    questions, it then holds those of [question1], [question2],
    [question3] that the analysis has with a true value, and nothing
    else of the analysis. *)
Theorem create_result_dict_returns (float_is_zero : string → bool)
    (subreddit_name : string) (p : Topics.post)
    (d : list (string * Analyzer.json)) (summary status : Analyzer.json) :
  Topics.dict_get d "summary" = Some summary →
  Topics.dict_get d "status" = Some status →
  Topics.create_result_dict float_is_zero subreddit_name p (Analyzer.JObject d)
  = inr (base_result subreddit_name p summary status
         ++ if Topics.status_asks status then kept_questions float_is_zero d
            else [])%list.
Proof. apply create_result_dict_dict. Qed.

Lemma create_result_dict_returns_witness :
  Topics.create_result_dict no_float_is_zero "AppSheet" post_offline analysis_gap
  = inr [ ("subreddit", Analyzer.JString "AppSheet");
          ("postUrl", Analyzer.JString "https://www.reddit.com/r/AppSheet/1");
          ("postTitle", Analyzer.JString "Offline forms");
          ("summary", Analyzer.JString "Can forms work offline?");
          ("status", Analyzer.JString "feature_not_supported");
          ("question1", Analyzer.JString "Does it sync later?") ].
Proof.
  exact (create_result_dict_returns no_float_is_zero "AppSheet" post_offline
           [ ("summary", Analyzer.JString "Can forms work offline?");
             ("status", Analyzer.JString "feature_not_supported");
             ("question1", Analyzer.JString "Does it sync later?");
             ("question2", Analyzer.JString EmptyString) ]
           (Analyzer.JString "Can forms work offline?")
           (Analyzer.JString "feature_not_supported") eq_refl eq_refl).
Defined.

Section GuardFacts.

Import Analyzer.

Variable float_is_zero : string → bool.

Lemma has_summary_and_status_dict (d : list (string * json)) :
  Topics.has_summary_and_status float_is_zero (JObject d)
  = inr (bool_decide (is_Some (Topics.dict_get d "summary")) &&
         bool_decide (is_Some (Topics.dict_get d "status"))).
Proof.
  unfold Topics.has_summary_and_status. destruct d as [|kv d]; [done|].
  simpl Topics.truthy. cbv iota. simpl.
  by destruct (bool_decide _).
Qed.

Lemma create_result_dict_not_dict (subreddit_name : string) (p : Topics.post)
    (analysis : json) :
  is_dict analysis = false →
  Topics.create_result_dict float_is_zero subreddit_name p analysis
  = inl Topics.TypeError.
Proof. by destruct analysis. Qed.

Lemma has_summary_and_status_raises (analysis : json) (e : Topics.exn) :
  Topics.has_summary_and_status float_is_zero analysis = inl e →
  e = Topics.TypeError ∧ is_dict analysis = false.
Proof.
  unfold Topics.has_summary_and_status.
  destruct (Topics.truthy float_is_zero analysis); [|done].
  destruct analysis; simpl; try (by intros [= <-]).
  - by destruct (Topics.contains s "summary").
  - by destruct (existsb _ items).
  - by destruct (bool_decide _).
Qed.

End GuardFacts.

(** X11: for an analysis that is a dictionary, the test of line 146
    holds exactly when the keys [summary] and [status] are both
    present, whatever their values, and [create_result_dict] then
    returns; it raises [KeyError] exactly when one of the two keys is
    missing, which the test excludes. *)
Theorem test_protects_create_result_dict (float_is_zero : string → bool)
    (subreddit_name : string) (p : Topics.post)
    (d : list (string * Analyzer.json)) :
  Topics.has_summary_and_status float_is_zero (Analyzer.JObject d)
  = inr (bool_decide (is_Some (Topics.dict_get d "summary")) &&
         bool_decide (is_Some (Topics.dict_get d "status"))) ∧
  (Topics.create_result_dict float_is_zero subreddit_name p (Analyzer.JObject d)
   = inl Topics.KeyError ↔
   Topics.dict_get d "summary" = None ∨ Topics.dict_get d "status" = None) ∧
  (is_Some (accepted float_is_zero subreddit_name p (Analyzer.JObject d)) ↔
   is_Some (Topics.dict_get d "summary") ∧ is_Some (Topics.dict_get d "status")).
Proof.
  split_and!.
  - apply has_summary_and_status_dict.
  - destruct (Topics.dict_get d "summary") as [summary|] eqn:Hsum.
    + destruct (Topics.dict_get d "status") as [status|] eqn:Hst.
      * rewrite (create_result_dict_dict _ _ _ _ _ _ Hsum Hst). naive_solver.
      * unfold Topics.create_result_dict. simpl. rewrite Hsum. simpl.
        rewrite Hst. naive_solver.
    + unfold Topics.create_result_dict. simpl. rewrite Hsum. naive_solver.
  - unfold accepted. rewrite has_summary_and_status_dict.
    destruct (Topics.dict_get d "summary") as [summary|] eqn:Hsum.
    + destruct (Topics.dict_get d "status") as [status|] eqn:Hst.
      * rewrite (create_result_dict_dict _ _ _ _ _ _ Hsum Hst).
        rewrite !bool_decide_eq_true_2 by done. simpl. naive_solver.
      * rewrite (bool_decide_eq_false_2 (is_Some None)) by by intros [??].
        rewrite andb_false_r. split; [by intros [??]|]. by intros [_ [??]].
    + rewrite (bool_decide_eq_false_2 (is_Some None)) by by intros [??].
      simpl. split; [by intros [??]|]. by intros [[??] _].
Qed.

(** ** The loop over the posts *)
Section PostLoopFacts.

Import Analyzer.

Variable float_is_zero : string → bool.
Variable json_loads : string → option json.
Variable strip : string → string.
Variable chat : string → string → string → string → string → option string.
Variable reddit : string → list Topics.post.
Variable my_platform : string.
Variable output_file : string.
Variable max_posts : Z.

Abbreviation analysis := (analysis_of json_loads strip chat my_platform).
Abbreviation accept_result := (after_result output_file).
Abbreviation for_posts :=
  (Topics.for_posts float_is_zero json_loads strip chat my_platform output_file
     max_posts).
Abbreviation for_subreddits :=
  (Topics.for_subreddits float_is_zero json_loads strip chat reddit my_platform
     output_file max_posts).

Lemma for_posts_cons (subreddit_name : string) (p : Topics.post)
    (rest : list Topics.post) (k : Z) (st : Topics.state) :
  for_posts subreddit_name (p :: rest) k st
  = if (max_posts <=? k)%Z then Topics.Done st
    else
      match Topics.has_summary_and_status float_is_zero
              (analysis subreddit_name p) with
      | inl e => Topics.Raised e (after_analysis subreddit_name p st)
      | inr false =>
          for_posts subreddit_name rest k (after_analysis subreddit_name p st)
      | inr true =>
          match Topics.create_result_dict float_is_zero subreddit_name p
                  (analysis subreddit_name p) with
          | inl e => Topics.Raised e (after_analysis subreddit_name p st)
          | inr result =>
              for_posts subreddit_name rest (k + 1)
                (accept_result result (after_analysis subreddit_name p st))
          end
      end.
Proof. reflexivity. Qed.

(** A rule for the loop: [Inv] is kept by the call of [analyze_post] and
    by the acceptance of a result. *)
Lemma for_posts_rule (Inv : Z → Topics.state → Prop) (subreddit_name : string) :
  (∀ p k st, Inv k st → Inv k (after_analysis subreddit_name p st)) →
  (∀ p k st result,
      (k < max_posts)%Z →
      accepted float_is_zero subreddit_name p (analysis subreddit_name p)
        = Some result →
      Inv k st → Inv (k + 1)%Z (accept_result result st)) →
  ∀ posts k st,
    Inv k st →
    ∃ k', (k ≤ k')%Z ∧ Inv k' (Topics.final (for_posts subreddit_name posts k st)).
Proof.
  intros Hana Hres. induction posts as [|p rest IH]; intros k st Hst.
  - exists k. by split.
  - rewrite for_posts_cons. destruct (Z.leb_spec max_posts k) as [|Hlt].
    { exists k. by split. }
    pose proof (Hana p k st Hst) as Hst1.
    destruct (Topics.has_summary_and_status float_is_zero
                (analysis subreddit_name p)) as [e|[]] eqn:Htest.
    + exists k. by split.
    + destruct (Topics.create_result_dict float_is_zero subreddit_name p
                  (analysis subreddit_name p)) as [e|result] eqn:Hcreate.
      * exists k. by split.
      * destruct (IH (k + 1)%Z
                    (accept_result result (after_analysis subreddit_name p st)))
          as (k' & Hk' & Hinv).
        { apply (Hres p); [done| |done]. unfold accepted.
          by rewrite Htest, Hcreate. }
        exists k'. split; [lia|done].
    + by apply IH.
Qed.

Lemma for_posts_results (subreddit_name : string) (posts : list Topics.post) :
  ∀ k st st',
    for_posts subreddit_name posts k st = Topics.Done st' →
    Topics.all_results st'
    = (Topics.all_results st
       ++ take (Z.to_nat (max_posts - k))
            (omap (λ p, accepted float_is_zero subreddit_name p
                          (analysis subreddit_name p)) posts))%list.
Proof.
  induction posts as [|p rest IH]; intros k st st'.
  - intros [= <-]. simpl. by rewrite take_nil, app_nil_r.
  - rewrite for_posts_cons. destruct (Z.leb_spec max_posts k) as [|Hlt].
    { intros [= <-]. replace (Z.to_nat (max_posts - k)) with 0%nat by lia.
      by rewrite take_0, app_nil_r. }
    simpl omap. unfold accepted at 1.
    destruct (Topics.has_summary_and_status float_is_zero
                (analysis subreddit_name p)) as [e|[]] eqn:Htest; [done| |].
    + destruct (Topics.create_result_dict float_is_zero subreddit_name p
                  (analysis subreddit_name p)) as [e|result] eqn:Hcreate;
        [done|].
      intros Hrun. rewrite (IH _ _ _ Hrun). simpl.
      replace (Z.to_nat (max_posts - k)) with (S (Z.to_nat (max_posts - (k + 1))))
        by lia.
      by rewrite <- app_assoc.
    + intros Hrun. by rewrite (IH _ _ _ Hrun).
Qed.

Lemma for_subreddits_results (names : list string) :
  ∀ st st',
    for_subreddits names st = Topics.Done st' →
    Topics.all_results st'
    = (Topics.all_results st
       ++ flat_map (λ name,
            take (Z.to_nat max_posts)
              (omap (λ p, accepted float_is_zero name p (analysis name p))
                 (reddit name))) names)%list.
Proof.
  induction names as [|name names IH]; intros st st'; simpl.
  - intros [= <-]. by rewrite app_nil_r.
  - destruct (for_posts name (reddit name) 0 st) as [st1|e st1] eqn:Hposts;
      [|done].
    intros Hrun. rewrite (IH _ _ Hrun), (for_posts_results _ _ _ _ _ Hposts).
    rewrite Z.sub_0_r. by rewrite <- app_assoc.
Qed.


End PostLoopFacts.

(** X12: what a run that returns has collected.  For each subreddit in
    turn, the posts are taken newest first, those whose analysis passes
    the test of line 146 give a result, and the first [max_posts] of
    these results are kept: the loop with its counter and its [break]
    computes this list. *)
Theorem results_are_first_accepted (float_is_zero : string → bool)
    (json_loads : string → option Analyzer.json) (strip : string → string)
    (chat : string → string → string → string → string → option string)
    (reddit : string → list Topics.post) (my_platform output_file : string)
    (max_posts : Z) (subreddit_names : list string)
    (fs : gmap string (list (list (string * Analyzer.json))))
    (st : Topics.state) :
  Topics.analyze_reddit_topics float_is_zero json_loads strip chat reddit
    my_platform output_file max_posts subreddit_names fs = Topics.Done st →
  Topics.all_results st
  = flat_map (λ name,
      take (Z.to_nat max_posts)
        (omap (λ p, accepted float_is_zero name p
                      (analysis_of json_loads strip chat my_platform name p))
           (reddit name))) subreddit_names.
Proof.
  intros Hrun. unfold Topics.analyze_reddit_topics in Hrun.
  by rewrite (for_subreddits_results _ _ _ _ _ _ _ _ _ _ _ Hrun).
Qed.

Lemma results_are_first_accepted_witness :
  Topics.all_results
    (Topics.final
       (Topics.analyze_reddit_topics no_float_is_zero loads_replies strip_none
          chat_example reddit_example "Clappia" "out.json" 10
          ["AppSheet"; "glideapps"] ∅))
  = flat_map (λ name,
      take (Z.to_nat 10)
        (omap (λ p, accepted no_float_is_zero name p
                      (analysis_of loads_replies strip_none chat_example
                         "Clappia" name p))
           (reddit_example name))) ["AppSheet"; "glideapps"].
Proof.
  apply (results_are_first_accepted no_float_is_zero loads_replies strip_none
           chat_example reddit_example "Clappia" "out.json" 10
           ["AppSheet"; "glideapps"] ∅).
  reflexivity.
Defined.

Lemma for_posts_count (float_is_zero : string → bool)
    (json_loads : string → option Analyzer.json) (strip : string → string)
    (chat : string → string → string → string → string → option string)
    (my_platform output_file : string) (max_posts : Z)
    (subreddit_name : string) (posts : list Topics.post) (st : Topics.state) :
  (length (Topics.all_results
             (Topics.final
                (Topics.for_posts float_is_zero json_loads strip chat
                   my_platform output_file max_posts subreddit_name posts 0 st)))
   ≤ length (Topics.all_results st) + Z.to_nat max_posts)%nat.
Proof.
  destruct (for_posts_rule float_is_zero json_loads strip chat my_platform
              output_file max_posts
              (λ k st', (0 ≤ k ≤ Z.max 0 max_posts)%Z ∧
                        (length (Topics.all_results st')
                         ≤ length (Topics.all_results st) + Z.to_nat k)%nat)
              subreddit_name) with (posts := posts) (k := 0%Z) (st := st)
    as (k' & _ & Hk' & Hlen).
  - by intros p k st' [??].
  - intros p k st' result Hlt _ [Hk Hlen]. split; [lia|]. simpl.
    rewrite length_app. simpl. lia.
  - split; [lia|]. simpl. lia.
  - lia.
Qed.

(** X13: however the run ends, it has collected at most [max_posts]
    results for each subreddit it was given. *)
Theorem results_are_capped (float_is_zero : string → bool)
    (json_loads : string → option Analyzer.json) (strip : string → string)
    (chat : string → string → string → string → string → option string)
    (reddit : string → list Topics.post) (my_platform output_file : string)
    (max_posts : Z) (subreddit_names : list string)
    (fs : gmap string (list (list (string * Analyzer.json)))) :
  (length (Topics.all_results
             (Topics.final
                (Topics.analyze_reddit_topics float_is_zero json_loads strip
                   chat reddit my_platform output_file max_posts
                   subreddit_names fs)))
   ≤ Z.to_nat max_posts * length subreddit_names)%nat.
Proof.
  unfold Topics.analyze_reddit_topics.
  assert (∀ names st,
            (length (Topics.all_results
                       (Topics.final
                          (Topics.for_subreddits float_is_zero json_loads strip
                             chat reddit my_platform output_file max_posts
                             names st)))
             ≤ length (Topics.all_results st)
               + Z.to_nat max_posts * length names)%nat) as Hgen.
  { induction names as [|name names IH]; intros st; simpl; [lia|].
    pose proof (for_posts_count float_is_zero json_loads strip chat my_platform
                  output_file max_posts name (reddit name) st) as Hone.
    destruct (Topics.for_posts _ _ _ _ _ _ _ name (reddit name) 0 st)
      as [st1|e st1]; simpl in Hone.
    - specialize (IH st1). lia.
    - simpl. lia. }
  specialize (Hgen subreddit_names (Topics.State [] fs [])). simpl in Hgen. lia.
Qed.


(** X15: with [max_posts] zero or negative the run does nothing: no post
    is analysed, no result collected, no file written. *)
Theorem no_posts_wanted (float_is_zero : string → bool)
    (json_loads : string → option Analyzer.json) (strip : string → string)
    (chat : string → string → string → string → string → option string)
    (reddit : string → list Topics.post) (my_platform output_file : string)
    (max_posts : Z) (subreddit_names : list string)
    (fs : gmap string (list (list (string * Analyzer.json)))) :
  (max_posts ≤ 0)%Z →
  Topics.analyze_reddit_topics float_is_zero json_loads strip chat reddit
    my_platform output_file max_posts subreddit_names fs
  = Topics.Done (Topics.State [] fs []).
Proof.
  intros Hmax. unfold Topics.analyze_reddit_topics.
  generalize (Topics.State [] fs []).
  induction subreddit_names as [|name names IH]; intros st; simpl; [done|].
  destruct (reddit name) as [|p rest]; simpl; [apply IH|].
  destruct (Z.leb_spec max_posts 0); [apply IH|lia].
Qed.

Lemma no_posts_wanted_witness :
  Topics.analyze_reddit_topics no_float_is_zero loads_replies strip_none
    chat_example reddit_example "Clappia" "out.json" 0 ["AppSheet"] ∅
  = Topics.Done (Topics.State [] ∅ []).
Proof. apply no_posts_wanted. lia. Defined.

Lemma for_posts_chat_down (float_is_zero : string → bool)
    (json_loads : string → option Analyzer.json) (strip : string → string)
    (chat : string → string → string → string → string → option string)
    (my_platform output_file : string) (max_posts : Z)
    (subreddit_name : string) (posts : list Topics.post) :
  (∀ name title body comments platform,
      chat name title body comments platform = None) →
  (0 < max_posts)%Z →
  ∀ st,
    Topics.all_results st = [] →
    Topics.for_posts float_is_zero json_loads strip chat my_platform
      output_file max_posts subreddit_name posts 0 st
    = Topics.Done
        (Topics.State [] (Topics.files st)
           (Topics.analysed st ++ map (pair subreddit_name) posts)).
Proof.
  intros Hdown Hmax. induction posts as [|p rest IH]; intros st Hres.
  - simpl. rewrite app_nil_r. destruct st; simpl in *. by subst.
  - rewrite for_posts_cons. destruct (Z.leb_spec max_posts 0); [lia|].
    unfold analysis_of, Topics.analyze_post. rewrite Hdown. simpl.
    rewrite IH by done. simpl. by rewrite <- app_assoc.
Qed.

(** X16: when every request to the model fails, the run still goes
    through every post of every subreddit, in order, collects nothing
    and writes no file: [analyze_post] turns the failure into an empty
    dictionary, which the test of line 146 passes over. *)
Theorem service_down_collects_nothing (float_is_zero : string → bool)
    (json_loads : string → option Analyzer.json) (strip : string → string)
    (chat : string → string → string → string → string → option string)
    (reddit : string → list Topics.post) (my_platform output_file : string)
    (max_posts : Z) (subreddit_names : list string)
    (fs : gmap string (list (list (string * Analyzer.json)))) :
  (∀ name title body comments platform,
      chat name title body comments platform = None) →
  (0 < max_posts)%Z →
  Topics.analyze_reddit_topics float_is_zero json_loads strip chat reddit
    my_platform output_file max_posts subreddit_names fs
  = Topics.Done
      (Topics.State [] fs
         (flat_map (λ name, map (pair name) (reddit name)) subreddit_names)).
Proof.
  intros Hdown Hmax. unfold Topics.analyze_reddit_topics.
  assert (∀ names seen,
            Topics.for_subreddits float_is_zero json_loads strip chat reddit
              my_platform output_file max_posts names (Topics.State [] fs seen)
            = Topics.Done
                (Topics.State [] fs
                   (seen ++ flat_map (λ name, map (pair name) (reddit name))
                              names))) as Hgen.
  { induction names as [|name names IH]; intros seen; simpl.
    - by rewrite app_nil_r.
    - rewrite for_posts_chat_down by done. simpl.
      rewrite IH. by rewrite <- app_assoc. }
  apply (Hgen subreddit_names []).
Qed.

Lemma service_down_collects_nothing_witness :
  Topics.analyze_reddit_topics no_float_is_zero loads_replies strip_none
    chat_down reddit_example "Clappia" "out.json" 10 ["AppSheet"] ∅
  = Topics.Done
      (Topics.State [] ∅
         [("AppSheet", post_offline); ("AppSheet", post_dark);
          ("AppSheet", post_rant)]).
Proof.
  apply (service_down_collects_nothing no_float_is_zero loads_replies
           strip_none chat_down reddit_example "Clappia" "out.json" 10
           ["AppSheet"] ∅); [reflexivity|lia].
Defined.





(** X18: a reply that is JSON without being an object never gives a
    result.  In the loop, a post whose analysis is not a dictionary is
    passed over, or it ends the run with [TypeError]: nothing is
    appended and the file is not written for it. *)
Theorem non_object_reply_gives_no_result (float_is_zero : string → bool)
    (json_loads : string → option Analyzer.json) (strip : string → string)
    (chat : string → string → string → string → string → option string)
    (my_platform output_file : string) (max_posts : Z)
    (subreddit_name : string) (p : Topics.post) (rest : list Topics.post)
    (k : Z) (st : Topics.state) :
  (k < max_posts)%Z →
  Analyzer.is_dict
    (analysis_of json_loads strip chat my_platform subreddit_name p) = false →
  accepted float_is_zero subreddit_name p
    (analysis_of json_loads strip chat my_platform subreddit_name p) = None ∧
  (Topics.for_posts float_is_zero json_loads strip chat my_platform output_file
     max_posts subreddit_name (p :: rest) k st
   = Topics.Raised Topics.TypeError (after_analysis subreddit_name p st) ∨
   Topics.for_posts float_is_zero json_loads strip chat my_platform output_file
     max_posts subreddit_name (p :: rest) k st
   = Topics.for_posts float_is_zero json_loads strip chat my_platform
       output_file max_posts subreddit_name rest k
       (after_analysis subreddit_name p st)).
Proof.
  intros Hk Hnot. rewrite for_posts_cons. unfold accepted.
  destruct (Z.leb_spec max_posts k); [lia|].
  rewrite (create_result_dict_not_dict float_is_zero subreddit_name p _ Hnot).
  destruct (Topics.has_summary_and_status float_is_zero _) as [e|[]] eqn:Htest.
  - apply has_summary_and_status_raises in Htest as [-> _]. by split; [|left].
  - by split; [|left].
  - by split; [|right].
Qed.

Lemma non_object_reply_gives_no_result_witness :
  accepted no_float_is_zero "AppSheet" post_rant
    (analysis_of loads_replies strip_none chat_text "Clappia" "AppSheet"
       post_rant) = None ∧
  (Topics.for_posts no_float_is_zero loads_replies strip_none chat_text
     "Clappia" "out.json" 10 "AppSheet" [post_rant] 1 (Topics.State [] ∅ [])
   = Topics.Raised Topics.TypeError
       (after_analysis "AppSheet" post_rant (Topics.State [] ∅ [])) ∨
   Topics.for_posts no_float_is_zero loads_replies strip_none chat_text
     "Clappia" "out.json" 10 "AppSheet" [post_rant] 1 (Topics.State [] ∅ [])
   = Topics.for_posts no_float_is_zero loads_replies strip_none chat_text
       "Clappia" "out.json" 10 "AppSheet" [] 1
       (after_analysis "AppSheet" post_rant (Topics.State [] ∅ []))).
Proof.
  apply non_object_reply_gives_no_result; [lia|reflexivity].
Defined.

Lemma parse_openai_response_unwraps_witness :
  Analyzer.parse_openai_response loads_replies
    ("Sure, here it is: " ++ String "{" (reply_gap_inner ++ String "}" " Done."))
  = analysis_gap.
Proof.
  apply (parse_openai_response_unwraps loads_replies "Sure, here it is: "
           reply_gap_inner " Done."); reflexivity.
Defined.


(** ** The file against the link graph *)

(** X19: what [main] leaves in [child_urls.csv] when the traversal
    returns: after the header, one row for each URL other than the
    start URL that can be reached from it along links the loop follows,
    every such URL once. *)
Theorem main_lists_reachable_pages
    (urljoin : string → string → option string) (web : string → reply)
    (fuel : nat) (url : string)
    (files : gmap string (list (list string))) (st : state) :
  traverse urljoin web fuel url = Done st →
  ∃ l, snd (main urljoin web fuel url files) !! "child_urls.csv"
       = Some (["Child URLs"] :: map (λ child_url, [child_url]) l) ∧
       NoDup l ∧
       ∀ v, v ∈ l ↔ rtc (follows_link urljoin web url) url v ∧ v ≠ url.
Proof.
  intros Hrun. exists (child_urls st). split_and!.
  - rewrite (main_Done urljoin web fuel url files st Hrun). simpl.
    by rewrite lookup_insert_eq.
  - assert (children_distinct (traverse urljoin web fuel url)) as [Hnd _].
    { apply crawl_page_children_distinct; simpl; [apply NoDup_nil_2|done]. }
    by rewrite Hrun in Hnd.
  - by apply (traverse_Done_reachable urljoin web fuel url st).
Qed.

Lemma main_lists_reachable_pages_witness :
  ∃ l, snd (main urljoin_simple (serve ex_com) 2 "https://ex.com/" ∅)
         !! "child_urls.csv"
       = Some (["Child URLs"] :: map (λ child_url, [child_url]) l) ∧
       NoDup l ∧
       ∀ v, v ∈ l ↔
            rtc (follows_link urljoin_simple (serve ex_com) "https://ex.com/")
              "https://ex.com/" v ∧ v ≠ "https://ex.com/".
Proof.
  apply (main_lists_reachable_pages urljoin_simple (serve ex_com) 2
           "https://ex.com/" ∅
           (final (traverse urljoin_simple (serve ex_com) 2 "https://ex.com/"))).
  reflexivity.
Defined.

(** ** The requests to the model *)

Lemma for_posts_analysed (float_is_zero : string → bool)
    (json_loads : string → option Analyzer.json) (strip : string → string)
    (chat : string → string → string → string → string → option string)
    (my_platform output_file : string) (max_posts : Z)
    (subreddit_name : string) (posts : list Topics.post) :
  ∀ k st, ∃ n,
    Topics.analysed
      (Topics.final
         (Topics.for_posts float_is_zero json_loads strip chat my_platform
            output_file max_posts subreddit_name posts k st))
    = (Topics.analysed st ++ map (pair subreddit_name) (take n posts))%list ∧
    ∀ m, (m < n)%nat →
         (k + Z.of_nat (length (omap (λ p, accepted float_is_zero subreddit_name p
                                   (analysis_of json_loads strip chat
                                      my_platform subreddit_name p))
                        (take m posts))) < max_posts)%Z.
Proof.
  set (acc := λ p, accepted float_is_zero subreddit_name p
                     (analysis_of json_loads strip chat my_platform
                        subreddit_name p)).
  induction posts as [|p rest IH]; intros k st.
  - exists 0%nat. split; [by rewrite app_nil_r|]. lia.
  - rewrite for_posts_cons. destruct (Z.leb_spec max_posts k) as [|Hlt].
    { exists 0%nat. split; [by rewrite app_nil_r|]. lia. }
    assert (∀ o k',
              (k' = k + Z.of_nat (length (omap acc [p])))%Z →
              (∃ n,
                 Topics.analysed (Topics.final o)
                 = (Topics.analysed (after_analysis subreddit_name p st)
                    ++ map (pair subreddit_name) (take n rest))%list ∧
                 ∀ m, (m < n)%nat →
                      (k' + Z.of_nat (length (omap acc (take m rest)))
                       < max_posts)%Z) →
              ∃ n,
                Topics.analysed (Topics.final o)
                = (Topics.analysed st
                   ++ map (pair subreddit_name) (take n (p :: rest)))%list ∧
                ∀ m, (m < n)%nat →
                     (k + Z.of_nat (length (omap acc (take m (p :: rest))))
                      < max_posts)%Z) as Hwrap.
    { intros o k' Hk' (n & Han & Hm). exists (S n). split.
      - rewrite Han. simpl. by rewrite <- app_assoc.
      - intros [|m] Hlt'; [simpl; lia|]. specialize (Hm m ltac:(lia)).
        change (take (S m) (p :: rest)) with ([p] ++ take m rest)%list.
        rewrite omap_app, length_app. lia. }
    assert (acc p
            = match Topics.has_summary_and_status float_is_zero
                      (analysis_of json_loads strip chat my_platform
                         subreddit_name p) with
              | inr true =>
                  match Topics.create_result_dict float_is_zero subreddit_name
                          p (analysis_of json_loads strip chat my_platform
                               subreddit_name p) with
                  | inr result => Some result
                  | inl _ => None
                  end
              | _ => None
              end) as Hacc by done.
    destruct (Topics.has_summary_and_status float_is_zero
                (analysis_of json_loads strip chat my_platform subreddit_name p))
      as [e|[]] eqn:Htest.
    + apply (Hwrap _ k); [simpl; rewrite Hacc; simpl; lia|].
      exists 0%nat. split; [by rewrite app_nil_r|]. lia.
    + destruct (Topics.create_result_dict float_is_zero subreddit_name p
                  (analysis_of json_loads strip chat my_platform
                     subreddit_name p)) as [e|result] eqn:Hcreate.
      * apply (Hwrap _ k); [simpl; rewrite Hacc; simpl; lia|].
        exists 0%nat. split; [by rewrite app_nil_r|]. lia.
      * apply (Hwrap _ (k + 1)%Z); [simpl; rewrite Hacc; simpl; lia|].
        destruct (IH (k + 1)%Z
                    (after_result output_file result
                       (after_analysis subreddit_name p st)))
          as (n & Han & Hm).
        exists n. split; [exact Han|exact Hm].
    + apply (Hwrap _ k); [simpl; rewrite Hacc; simpl; lia|]. apply IH.
Qed.

(** X20: the model is asked in order and only while results are
    wanted.  In the loop over the posts of a subreddit, the posts handed
    to [analyze_post] are the first so many of the listing, and each of
    them was handed over when the results collected from the posts
    before it were fewer than [max_posts]. *)
Theorem model_asked_while_results_wanted (float_is_zero : string → bool)
    (json_loads : string → option Analyzer.json) (strip : string → string)
    (chat : string → string → string → string → string → option string)
    (my_platform output_file : string) (max_posts : Z)
    (subreddit_name : string) (posts : list Topics.post) (st : Topics.state) :
  ∃ n,
    Topics.analysed
      (Topics.final
         (Topics.for_posts float_is_zero json_loads strip chat my_platform
            output_file max_posts subreddit_name posts 0 st))
    = (Topics.analysed st ++ map (pair subreddit_name) (take n posts))%list ∧
    Forall (λ m,
        (Z.of_nat (length (omap (λ p, accepted float_is_zero subreddit_name p
                                        (analysis_of json_loads strip chat
                                           my_platform subreddit_name p))
                             (take m posts))) < max_posts)%Z)
      (seq 0 n).
Proof.
  destruct (for_posts_analysed float_is_zero json_loads strip chat my_platform
              output_file max_posts subreddit_name posts 0%Z st)
    as (n & Han & Hm).
  exists n. split; [done|]. apply Forall_forall. intros m Hin.
  apply elem_of_seq in Hin. specialize (Hm m). lia.
Qed.
